(** * Shallow embedding of the RAG question-answering / diagnosis service
    (src/unnamed/part_001: initializeHF, buildRAGPrompt, generateRAGAnswer,
    streamRAGAnswer, diagnoseDiseaseFromSymptoms).

    Modelling conventions.
    - JavaScript strings are [String.string]; text is taken to be ASCII, so
      [toLowerCase], [trim] and the regex classes [\s] and [.] are their ASCII
      restrictions.
    - A thrown [Error] is [Err message]; every exception raised on these paths
      is an [Error] object carrying a message.
    - The external collaborators ([generateEmbedding] and [findSimilarChunks]
      from ./embeddingService, and [HfInference.chatCompletion]) are fields of
      a [Services] record, so every statement quantifies over them.
    - Process state read by the code is a [World]: the
      HUGGINGFACE_API_KEY environment variable, the module-level singleton
      [hfClient], and the value [Date.now()] returns.
    - Numbers the code only passes through (embedding vectors, similarity
      scores, sampling parameters) are rationals. *)

From Stdlib Require Import String Ascii List ZArith QArith Bool Lia.
From Stdlib Require Import Numbers.DecimalString.
Import ListNotations.
Close Scope Q_scope.
Open Scope nat_scope.
Open Scope string_scope.

(** ** Characters and string helpers *)

Definition nl : string := String "010"%char EmptyString.
Definition dq : string := String "034"%char EmptyString.

(** [String(n)] for a non-negative integer. *)
Definition nat_str (n : nat) : string := NilEmpty.string_of_uint (Nat.to_uint n).
Definition Z_str (z : Z) : string := NilEmpty.string_of_int (Z.to_int z).

(** [\s] and the characters [String.prototype.trim] removes (ASCII part):
    TAB, LF, VT, FF, CR, SPACE. *)
Definition is_space (c : ascii) : bool :=
  match nat_of_ascii c with
  | 9 | 10 | 11 | 12 | 13 | 32 => true
  | _ => false
  end.

(** [.] without the [s] flag matches anything but a line terminator (LF, CR). *)
Definition is_line_terminator (c : ascii) : bool :=
  match nat_of_ascii c with
  | 10 | 13 => true
  | _ => false
  end.

Definition to_lower (c : ascii) : ascii :=
  let n := nat_of_ascii c in
  if (65 <=? n)%nat && (n <=? 90)%nat then ascii_of_nat (n + 32) else c.

(** [s.toLowerCase()] *)
Fixpoint toLowerCase (s : string) : string :=
  match s with
  | EmptyString => EmptyString
  | String c s' => String (to_lower c) (toLowerCase s')
  end.

(** [s.includes(pat)] *)
Fixpoint includes (s pat : string) : bool :=
  prefix pat s ||
  match s with
  | EmptyString => false
  | String _ s' => includes s' pat
  end.

Fixpoint ltrim (s : string) : string :=
  match s with
  | EmptyString => EmptyString
  | String c s' => if is_space c then ltrim s' else s
  end.

Fixpoint rtrim (s : string) : string :=
  match s with
  | EmptyString => EmptyString
  | String c s' =>
      let r := rtrim s' in
      if (r =? "") && is_space c then EmptyString else String c r
  end.

(** [s.trim()] *)
Definition trim (s : string) : string := rtrim (ltrim s).

(** [arr.join(sep)] *)
Definition join (sep : string) (l : list string) : string := String.concat sep l.

(** [arr.map((x, idx) => f idx x)] *)
Fixpoint mapi_from {A B : Type} (i : nat) (f : nat -> A -> B) (l : list A) : list B :=
  match l with
  | [] => []
  | x :: l' => f i x :: mapi_from (S i) f l'
  end.
Definition mapi {A B : Type} (f : nat -> A -> B) (l : list A) : list B := mapi_from 0 f l.

(** ** Results and JavaScript values *)

Inductive Res (A : Type) : Type :=
| Ok (a : A)
| Err (message : string).
Arguments Ok {A} a.
Arguments Err {A} message.

(** Values bound to identifiers, for template-literal interpolation. *)
Inductive JsVal : Type :=
| JStr (s : string)
| JNum (z : Z)
| JObj.

Definition js_to_string (v : JsVal) : string :=
  match v with
  | JStr s => s
  | JNum z => Z_str z
  | JObj => "[object Object]"
  end.

(** A template literal: literal text and [${identifier}] substitutions. *)
Inductive TPart : Type :=
| TLit (s : string)
| TVar (x : string).

Fixpoint lookup (x : string) (scope : list (string * JsVal)) : option JsVal :=
  match scope with
  | [] => None
  | (y, v) :: scope' => if x =? y then Some v else lookup x scope'
  end.

(** Substitutions are evaluated left to right; an identifier that is not
    bound in scope throws [ReferenceError: x is not defined]. *)
Fixpoint eval_template (scope : list (string * JsVal)) (parts : list TPart) : Res string :=
  match parts with
  | [] => Ok EmptyString
  | TLit s :: ps =>
      match eval_template scope ps with
      | Ok r => Ok (s ++ r)
      | Err e => Err e
      end
  | TVar x :: ps =>
      match lookup x scope with
      | None => Err (x ++ " is not defined")
      | Some v =>
          match eval_template scope ps with
          | Ok r => Ok (js_to_string v ++ r)
          | Err e => Err e
          end
      end
  end.

(** ** The response-parsing regular expressions (src lines 295-298)

    All four have the shape [/LABEL:\s*(.+?)(?:STOP|...)/i] (with the [s]
    flag for EXPLANATION and TREATMENT):
    - [DISEASE:\s*(.+?)(?:\n|$)] with flag i,
    - [CONFIDENCE:\s*(.+?)(?:\n|$)] with flag i,
    - [EXPLANATION:\s*(.+?)(?:\n|TREATMENT|$)] with flags i and s,
    - [TREATMENT:\s*(.+?)$] with flags i and s.
    [String.prototype.match] without the g flag returns the leftmost match;
    at a start position the backtracking order is: [\s*] greedy (longest
    first), then [.+?] lazy (shortest first), then the stop alternatives.
    The value used by the code is capture group 1. *)

Inductive Stop : Type :=
| AtNewline
| AtWord (w : string)
| AtEnd.

Record LabelRegex : Type := {
  label : string;
  dotAll : bool;
  stops : list Stop
}.

Definition disease_re : LabelRegex :=
  {| label := "DISEASE:"; dotAll := false; stops := [AtNewline; AtEnd] |}.
Definition confidence_re : LabelRegex :=
  {| label := "CONFIDENCE:"; dotAll := false; stops := [AtNewline; AtEnd] |}.
Definition explanation_re : LabelRegex :=
  {| label := "EXPLANATION:"; dotAll := true;
     stops := [AtNewline; AtWord "TREATMENT"; AtEnd] |}.
Definition treatment_re : LabelRegex :=
  {| label := "TREATMENT:"; dotAll := true; stops := [AtEnd] |}.

(** Case-insensitive character comparison (flag i). *)
Definition ci_eq (a b : ascii) : bool := Ascii.eqb (to_lower a) (to_lower b).

(** Match the literal [p] case-insensitively at the start of [s]; return
    the remaining input. *)
Fixpoint strip_prefix_ci (p s : string) : option string :=
  match p, s with
  | EmptyString, _ => Some s
  | String a p', String b s' => if ci_eq a b then strip_prefix_ci p' s' else None
  | String _ _, EmptyString => None
  end.

Definition dot_matches (r : LabelRegex) (c : ascii) : bool :=
  dotAll r || negb (is_line_terminator c).

Definition stop_at (st : Stop) (u : string) : bool :=
  match st with
  | AtNewline => match u with String c _ => Ascii.eqb c "010"%char | EmptyString => false end
  | AtWord w => match strip_prefix_ci w u with Some _ => true | None => false end
  | AtEnd => match u with EmptyString => true | String _ _ => false end
  end.

Definition stops_at (r : LabelRegex) (u : string) : bool :=
  existsb (fun st => stop_at st u) (stops r).

(** [.+?] after its first character: try the continuation, otherwise take
    one more character.  Returns the extra characters captured. *)
Fixpoint lazy_rest (r : LabelRegex) (u : string) : option string :=
  if stops_at r u then Some EmptyString
  else match u with
       | EmptyString => None
       | String c u' =>
           if dot_matches r c
           then match lazy_rest r u' with
                | Some x => Some (String c x)
                | None => None
                end
           else None
       end.

(** [(.+?)(?:stops)]: at least one character, then as few as possible. *)
Definition lazy_plus (r : LabelRegex) (u : string) : option string :=
  match u with
  | EmptyString => None
  | String c u' =>
      if dot_matches r c
      then match lazy_rest r u' with
           | Some x => Some (String c x)
           | None => None
           end
      else None
  end.

(** [\s*(.+?)(?:stops)]: the greedy star first tries to consume one more
    whitespace character and backtracks to stopping here. *)
Fixpoint ws_star (r : LabelRegex) (t : string) : option string :=
  match t with
  | String c t' =>
      if is_space c
      then match ws_star r t' with
           | Some x => Some x
           | None => lazy_plus r t
           end
      else lazy_plus r t
  | EmptyString => lazy_plus r t
  end.

(** The whole regex anchored at the current position. *)
Definition match_at (r : LabelRegex) (s : string) : option string :=
  match strip_prefix_ci (label r) s with
  | Some t => ws_star r t
  | None => None
  end.

(** [s.match(re)]: the leftmost position where the regex matches
    (positions 0 .. length s); the result is capture group 1. *)
Fixpoint search (r : LabelRegex) (s : string) : option string :=
  match match_at r s with
  | Some c => Some c
  | None =>
      match s with
      | EmptyString => None
      | String _ s' => search r s'
      end
  end.

(** ** Data model *)

Record TextChunk : Type := {
  text : string;
  embedding : list Q;
  chunk_id : string            (* [_id] *)
}.

Record SimilarChunk : Type := {
  chunk : TextChunk;
  similarity : Q
}.

Record Source : Type := {
  source_text : string;        (* [text] *)
  source_similarity : Q;       (* [similarity] *)
  chunkId : string
}.

Record RAGAnswer : Type := {
  answer : string;
  sources : list Source
}.

(** [rawResponse = None]: the returned object has no [rawResponse]
    property. *)
Record Diagnosis : Type := {
  disease : string;
  confidence : string;
  explanation : string;
  treatment : string;
  rawResponse : option string
}.

Record Message : Type := { role : string; content : string }.

Record ChatRequest : Type := {
  model : string;
  messages : list Message;
  max_tokens : Z;
  temperature : Q;
  top_p : Q;
  frequency_penalty : Q;
  presence_penalty : Q
}.

(** [new HfInference(apiKey)] *)
Record HfInference : Type := { accessToken : string }.

(** The fulfilled value of [client.chatCompletion(...)], reduced to what the
    code reads: [Some content] when [chatResponse.choices[0].message.content]
    is a string, [None] when that access (or [.trim()]) throws. *)
Definition ChatResponse : Type := option string.

Record Services : Type := {
  generateEmbedding : string -> Res (list Q);
  findSimilarChunks : list Q -> list TextChunk -> Z -> list SimilarChunk;
  chatCompletion : HfInference -> ChatRequest -> Res ChatResponse
}.

Record World : Type := {
  HUGGINGFACE_API_KEY : option string;   (* process.env.HUGGINGFACE_API_KEY *)
  hfClient : option HfInference;         (* module-level [let hfClient = null] *)
  clock : Z                              (* value of [Date.now()] *)
}.

(** [initializeHF] (src lines 9-14).  The empty string is falsy. *)
Definition initializeHF (w : World) : option HfInference * World :=
  match hfClient w with
  | Some c => (Some c, w)
  | None =>
      match HUGGINGFACE_API_KEY w with
      | Some k =>
          if k =? "" then (None, w)
          else let c := {| accessToken := k |} in
               (Some c, {| HUGGINGFACE_API_KEY := HUGGINGFACE_API_KEY w;
                           hfClient := Some c; clock := clock w |})
      | None => (None, w)
      end
  end.

(** ** generateRAGAnswer (src lines 16-136) *)

(** [buildRAGPrompt(question, relevantChunks)], the chunks given by their
    [text]. *)
Definition buildRAGPrompt (question : string) (relevantChunks : list string) : string :=
  let context :=
    join (nl ++ nl)
      (mapi (fun idx t => "[Context " ++ nat_str (idx + 1) ++ "]" ++ nl ++ t) relevantChunks) in
  "You are a helpful AI assistant specialized in livestock health and veterinary care. Use the provided context to answer the user's question accurately and concisely." ++ nl ++ nl ++
  "Context from documents:" ++ nl ++ context ++ nl ++ nl ++
  "User Question: " ++ question ++ nl ++ nl ++
  "Instructions:" ++ nl ++
  "- Answer based ONLY on the information provided in the context above" ++ nl ++
  "- If the context doesn't contain enough information to answer the question, say so clearly" ++ nl ++
  "- Be specific and cite relevant details from the context" ++ nl ++
  "- Keep your answer clear and practical for farmers" ++ nl ++
  "- If discussing medications or treatments, emphasize consulting a veterinarian for specific cases" ++ nl ++ nl ++
  "Answer:".

Definition no_info_answer : string :=
  "I don't have enough information in the uploaded documents to answer this question. Please make sure you've uploaded relevant documents.".

Definition not_configured : string := "Hugging Face API key not configured".

Definition rag_system_content : string :=
  "You are a helpful AI assistant specialized in livestock health and veterinary care. Provide detailed, comprehensive, and UNIQUE answers of 7-10 sentences tailored to the specific question. Each response should be personalized and varied. Base your answers ONLY on the provided context.".

(** The user message of the chat request (src line 99). *)
Definition rag_user_template : list TPart :=
  [ TLit ("Context from documents:" ++ nl);
    TVar "context";
    TLit (nl ++ nl ++ "User Question: ");
    TVar "question";
    TLit (nl ++ nl ++ "Provide a UNIQUE and PERSONALIZED detailed answer of 7-10 sentences based on the specific context and question. Make your response specific to this exact query. Vary your explanation style and focus on different aspects for different questions. Be specific and cite relevant details that are most pertinent to this particular question.") ].

(** Identifiers visible at src line 99 inside [generateRAGAnswer]: its
    parameters and locals, the module's top-level bindings, the CommonJS
    wrapper's bindings and the globals the file uses.  [context] is local to
    [buildRAGPrompt] and is not among them. *)
Definition module_scope : list (string * JsVal) :=
  [ ("HfInference", JObj); ("generateEmbedding", JObj); ("findSimilarChunks", JObj);
    ("hfClient", JObj); ("initializeHF", JObj); ("buildRAGPrompt", JObj);
    ("generateRAGAnswer", JObj); ("streamRAGAnswer", JObj);
    ("diagnoseDiseaseFromSymptoms", JObj);
    ("exports", JObj); ("require", JObj); ("module", JObj);
    ("__filename", JObj); ("__dirname", JObj);
    ("console", JObj); ("process", JObj); ("Date", JObj); ("Error", JObj) ].

Definition rag_scope (question : string) (topK : Z) (prompt : string) : list (string * JsVal) :=
  [ ("question", JStr question); ("allChunks", JObj); ("topK", JNum topK);
    ("questionEmbedding", JObj); ("similarChunks", JObj); ("relevantTexts", JObj);
    ("prompt", JStr prompt); ("client", JObj); ("answer", JStr "") ] ++ module_scope.

Definition rag_request (user : string) : ChatRequest :=
  {| model := "mistralai/Mistral-7B-Instruct-v0.2";
     messages := [ {| role := "system"; content := rag_system_content |};
                   {| role := "user"; content := user |} ];
     max_tokens := 650;
     temperature := Qmake 85 100;
     top_p := Qmake 92 100;
     frequency_penalty := Qmake 3 10;
     presence_penalty := Qmake 2 10 |}.

Definition property_read_error : string := "Cannot read properties of undefined".

(** Body of the inner [try] (src lines 90-109): build the request, await
    the completion, read and trim its content. *)
Definition rag_generate (svc : Services) (client : HfInference)
    (scope : list (string * JsVal)) : Res string :=
  match eval_template scope rag_user_template with
  | Err e => Err e
  | Ok user =>
      match chatCompletion svc client (rag_request user) with
      | Err e => Err e
      | Ok None => Err property_read_error
      | Ok (Some c) => Ok (trim c)
      end
  end.

(** The degraded answer of the inner [catch] (src line 114). *)
Definition rag_fallback_answer (question : string) (relevantTexts : list string) : string :=
  "Based on the available information in your documents:" ++ nl ++ nl ++
  join (nl ++ nl)
    (mapi (fun i t => nat_str (i + 1) ++ ". " ++ substring 0 200 t ++ "...") relevantTexts) ++
  nl ++ nl ++ "I recommend consulting these sections for more details about " ++
  dq ++ question ++ dq ++
  ". For specific medical advice, please consult with a qualified veterinarian.".

Definition unable_to_generate : string :=
  "Unable to generate answer - please try rephrasing your question or upload more relevant documents.".

Definition to_source (s : SimilarChunk) : Source :=
  {| source_text := substring 0 200 (text (chunk s)) ++ "...";
     source_similarity := similarity s;
     chunkId := chunk_id (chunk s) |}.

Definition rag_failed (m : string) : string := "Failed to generate answer: " ++ m.

Definition generateRAGAnswer (svc : Services) (question : string)
    (allChunks : list TextChunk) (topK : Z) (w : World) : Res RAGAnswer * World :=
  match generateEmbedding svc question with
  | Err m => (Err (rag_failed m), w)
  | Ok questionEmbedding =>
      let similarChunks := findSimilarChunks svc questionEmbedding allChunks topK in
      if (length similarChunks =? 0)%nat
      then (Ok {| answer := no_info_answer; sources := [] |}, w)
      else
        let relevantTexts := map (fun s => text (chunk s)) similarChunks in
        let prompt := buildRAGPrompt question relevantTexts in
        let '(client, w1) := initializeHF w in
        match client with
        | None => (Err (rag_failed not_configured), w1)
        | Some c =>
            let answer_res :=
              match rag_generate svc c (rag_scope question topK prompt) with
              | Ok a => Ok a
              | Err _ =>
                  if (0 <? length similarChunks)%nat
                  then Ok (rag_fallback_answer question relevantTexts)
                  else Err unable_to_generate
              end in
            match answer_res with
            | Err m => (Err (rag_failed m), w1)
            | Ok a => (Ok {| answer := a; sources := map to_source similarChunks |}, w1)
            end
        end
  end.

(** ** streamRAGAnswer (src lines 138-170)

    An async generator: the result is the list of values it yields.  It
    embeds the question and retrieves chunks itself, builds a prompt and calls
    [initializeHF] without using either, then calls [generateRAGAnswer] and
    yields its answer.  Every error is caught and yielded as a string. *)

Definition stream_no_info : string :=
  "I don't have enough information to answer this question.".

Definition streamRAGAnswer (svc : Services) (question : string)
    (allChunks : list TextChunk) (topK : Z) (w : World) : list string * World :=
  match generateEmbedding svc question with
  | Err m => (["Error: " ++ m], w)
  | Ok questionEmbedding =>
      let similarChunks := findSimilarChunks svc questionEmbedding allChunks topK in
      if (length similarChunks =? 0)%nat
      then ([stream_no_info], w)
      else
        let relevantTexts := map (fun s => text (chunk s)) similarChunks in
        let _prompt := buildRAGPrompt question relevantTexts in
        let '(_client, w1) := initializeHF w in
        match generateRAGAnswer svc question allChunks topK w1 with
        | (Ok result, w2) => ([answer result], w2)
        | (Err m, w2) => (["Error: " ++ m], w2)
        end
  end.

(** ** diagnoseDiseaseFromSymptoms (src lines 172-316) *)

Definition symptom_list (symptoms : list string) : string :=
  join nl (map (fun s => "- " ++ s) symptoms).

Definition diagnostic_query (symptomList : string) : string :=
  "A cattle is showing these symptoms:" ++ nl ++ symptomList ++ nl ++ nl ++
  "What disease does it likely have?".

(** The canned result of src lines 194-201: no [rawResponse] property. *)
Definition insufficient_diagnosis : Diagnosis :=
  {| disease := "Unknown";
     confidence := "Low";
     explanation := "Insufficient information in knowledge base to diagnose based on these symptoms.";
     treatment := "General care";
     rawResponse := None |}.

Definition diagnostic_context (similarChunks : list SimilarChunk) : string :=
  join (nl ++ nl)
    (mapi (fun idx c => "[Medical Reference " ++ nat_str (idx + 1) ++ "]" ++ nl ++ text (chunk c))
          similarChunks).

(** [diagnosticPrompt] (src lines 210-224); bound but not sent. *)
Definition diagnostic_prompt (context symptomList : string) : string :=
  "You are a veterinary AI assistant specializing in livestock health. Based on the medical knowledge provided, diagnose the most likely disease." ++ nl ++ nl ++
  "Medical Knowledge Base:" ++ nl ++ context ++ nl ++ nl ++
  "Patient Symptoms:" ++ nl ++ symptomList ++ nl ++ nl ++
  "Provide a diagnosis in EXACTLY this format:" ++ nl ++
  "DISEASE: [specific disease name]" ++ nl ++
  "CONFIDENCE: [High/Medium/Low]" ++ nl ++
  "EXPLANATION: [2-3 sentences explaining why these symptoms match this disease]" ++ nl ++
  "TREATMENT: [primary treatment approach or medicine category]" ++ nl ++ nl ++
  "Be specific with the disease name. Use medical terminology where appropriate.".

Definition diag_system_template : list TPart :=
  [ TLit "You are a veterinary AI assistant specializing in livestock health. Provide UNIQUE and PERSONALIZED comprehensive diagnostic reports with 7-10 sentences of detailed explanation. Each diagnosis should be tailored specifically to the exact symptom combination presented. Vary your diagnostic approach and treatment recommendations based on the specific symptoms. Always use the exact format requested. Analysis ID: ";
    TVar "uniqueSeed" ].

Definition diag_user_template : list TPart :=
  [ TLit ("Medical Knowledge Base:" ++ nl);
    TVar "context";
    TLit (nl ++ nl ++ "Patient Symptoms (Unique Case):" ++ nl);
    TVar "symptomList";
    TLit (nl ++ nl ++
      "Provide a PERSONALIZED diagnosis for this SPECIFIC symptom combination in EXACTLY this format:" ++ nl ++
      "DISEASE: [specific disease name tailored to these exact symptoms]" ++ nl ++
      "CONFIDENCE: [High/Medium/Low based on symptom specificity]" ++ nl ++
      "EXPLANATION: [7-10 sentences providing a UNIQUE analysis explaining why THESE SPECIFIC symptoms match this disease, including the pathophysiology relevant to THIS case, the typical progression for THIS symptom pattern, distinguishing features particular to THIS presentation, and risk factors specific to THIS combination]" ++ nl ++
      "TREATMENT: [PERSONALIZED detailed treatment approach specifically for THIS symptom combination, including targeted medication categories, specific supportive care measures relevant to THESE symptoms, monitoring recommendations, and veterinary consultation guidance]" ++ nl ++ nl ++
      "Be highly specific to this exact symptom combination. Make each diagnosis unique and personalized.") ].

(** Identifiers visible at src lines 241-258 inside the diagnosis. *)
Definition diag_scope (symptomList diagnosticQuery context diagnosticPrompt : string)
    (uniqueSeed : Z) : list (string * JsVal) :=
  [ ("symptoms", JObj); ("allChunks", JObj);
    ("symptomList", JStr symptomList); ("diagnosticQuery", JStr diagnosticQuery);
    ("queryEmbedding", JObj); ("similarChunks", JObj);
    ("context", JStr context); ("diagnosticPrompt", JStr diagnosticPrompt);
    ("client", JObj); ("response", JStr ""); ("uniqueSeed", JNum uniqueSeed) ]
  ++ module_scope.

Definition diag_request (system user : string) : ChatRequest :=
  {| model := "mistralai/Mistral-7B-Instruct-v0.2";
     messages := [ {| role := "system"; content := system |};
                   {| role := "user"; content := user |} ];
     max_tokens := 900;
     temperature := Qmake 75 100;
     top_p := Qmake 88 100;
     frequency_penalty := Qmake 4 10;
     presence_penalty := Qmake 3 10 |}.

(** Body of the inner [try] (src lines 239-260). *)
Definition diag_generate (svc : Services) (client : HfInference)
    (scope : list (string * JsVal)) : Res string :=
  match eval_template scope diag_system_template with
  | Err e => Err e
  | Ok system =>
      match eval_template scope diag_user_template with
      | Err e => Err e
      | Ok user =>
          match chatCompletion svc client (diag_request system user) with
          | Err e => Err e
          | Ok None => Err property_read_error
          | Ok (Some c) => Ok (trim c)
          end
      end
  end.

(** The keyword fallback of the inner [catch] (src lines 261-290). *)
Definition respiratory_disease : string := "Respiratory Infection (Possibly Pneumonia)".
Definition respiratory_text : string :=
  "The combination of fever and respiratory symptoms strongly suggests a respiratory tract infection. Pneumonia in cattle can be caused by various bacterial or viral pathogens. Early symptoms often include elevated body temperature, difficulty breathing, and coughing. If left untreated, the condition can progress to severe respiratory distress. The infection may be exacerbated by environmental factors such as poor ventilation or stress. Prompt veterinary intervention is crucial to prevent complications. Treatment typically involves antibiotics and supportive care.".
Definition gastro_disease : string := "Gastrointestinal Infection or Parasitic Condition".
Definition gastro_text : string :=
  "Diarrhea in livestock often indicates gastrointestinal disturbance, which can result from bacterial infections, viral pathogens, or parasitic infestations. The condition leads to fluid loss and potential dehydration if not addressed promptly. Common causes include E. coli, Salmonella, or intestinal parasites. The severity can range from mild to life-threatening depending on the underlying cause. Affected animals may also show signs of dehydration, weight loss, and reduced appetite. Proper diagnosis requires fecal examination and laboratory testing. Treatment involves fluid therapy, antimicrobials if bacterial, and addressing the underlying cause.".
Definition musculo_disease : string := "Musculoskeletal Disorder or Foot Rot".
Definition musculo_text : string :=
  "Lameness and difficulty walking in cattle can indicate various musculoskeletal problems or infectious conditions like foot rot. Foot rot is a common bacterial infection affecting the hooves, causing pain and mobility issues. The condition can significantly impact the animal's welfare and productivity. Environmental factors such as wet, muddy conditions increase susceptibility. If multiple limbs are affected, systemic diseases or nutritional deficiencies may be involved. Early detection and treatment are essential to prevent chronic lameness. Treatment typically includes antibiotics, hoof trimming, and improving environmental conditions.".
Definition mastitis_disease : string := "Mastitis or Metabolic Disorder".
Definition mastitis_text : string :=
  "Reduced milk production can be a sign of mastitis (udder infection) or metabolic disorders affecting lactating animals. Mastitis is characterized by inflammation of the mammary gland, often caused by bacterial infection. The condition not only reduces milk yield but also affects milk quality. Clinical signs may include swelling, heat, and pain in the udder. Subclinical mastitis can persist without obvious symptoms but still impact production. Metabolic causes could include ketosis or calcium deficiency. Proper diagnosis requires milk testing and clinical examination. Treatment depends on the specific cause but may include antibiotics, anti-inflammatory drugs, and supportive care.".
Definition general_disease : string := "General Infectious Disease".
Definition general_text : string :=
  "These symptoms warrant professional veterinary evaluation to determine the exact underlying condition. Multiple symptom presentation can indicate various infectious, metabolic, or environmental health challenges. A thorough clinical examination is needed to differentiate between potential diagnoses. Laboratory tests, including blood work and pathogen screening, may be necessary. The animal should be isolated if infectious disease is suspected to prevent spread. Environmental factors, nutrition, and stress levels should also be assessed. Early intervention improves prognosis and reduces the risk of complications. Please consult with a qualified veterinarian for accurate diagnosis and treatment planning.".
Definition fallback_treatment : string :=
  "Immediate veterinary consultation is recommended for accurate diagnosis and treatment planning. Supportive care including proper nutrition, hydration, and stress reduction should be provided. Depending on the diagnosis, treatment may include antimicrobials, anti-inflammatory medications, or specific therapeutic interventions. Monitor the animal closely and isolate if infectious disease is suspected.".

(** [symptoms.some(s => s.toLowerCase().includes(kw))] *)
Definition mentions (symptoms : list string) (kw : string) : bool :=
  existsb (fun s => includes (toLowerCase s) kw) symptoms.

(** The if / else-if chain of src lines 272-287: the disease and the text
    appended to the explanation. *)
Definition classify (symptoms : list string) : string * string :=
  if mentions symptoms "fever" && mentions symptoms "respiratory"
  then (respiratory_disease, respiratory_text)
  else if mentions symptoms "diarrhea" then (gastro_disease, gastro_text)
  else if mentions symptoms "lameness" then (musculo_disease, musculo_text)
  else if mentions symptoms "milk" then (mastitis_disease, mastitis_text)
  else (general_disease, general_text).

Definition fallback_intro (symptoms : list string) : string :=
  let symptomCount := length symptoms in
  "The animal is presenting with " ++ nat_str symptomCount ++ " notable symptom" ++
  (if (1 <? symptomCount)%nat then "s" else "") ++ ": " ++ join ", " symptoms ++ ". ".

Definition fallback_response (symptoms : list string) : string :=
  let '(likelyDisease, extra) := classify symptoms in
  "DISEASE: " ++ likelyDisease ++ nl ++
  "CONFIDENCE: Medium" ++ nl ++
  "EXPLANATION: " ++ (fallback_intro symptoms ++ extra) ++ nl ++
  "TREATMENT: " ++ fallback_treatment.

(** Step 5, the structured parse (src lines 295-306). *)
Definition field (r : LabelRegex) (response default : string) : string :=
  match search r response with
  | Some c => trim c
  | None => default
  end.

Definition parse_diagnosis (response : string) : Diagnosis :=
  {| disease := field disease_re response "Unable to diagnose";
     confidence := field confidence_re response "Low";
     explanation := field explanation_re response response;
     treatment := field treatment_re response "Consult veterinarian";
     rawResponse := Some response |}.

Definition diag_failed (m : string) : string := "Failed to diagnose disease: " ++ m.

Definition diagnoseDiseaseFromSymptoms (svc : Services) (symptoms : list string)
    (allChunks : list TextChunk) (w : World) : Res Diagnosis * World :=
  let symptomList := symptom_list symptoms in
  let diagnosticQuery := diagnostic_query symptomList in
  match generateEmbedding svc diagnosticQuery with
  | Err m => (Err (diag_failed m), w)
  | Ok queryEmbedding =>
      let similarChunks := findSimilarChunks svc queryEmbedding allChunks 5 in
      if (length similarChunks =? 0)%nat
      then (Ok insufficient_diagnosis, w)
      else
        let context := diagnostic_context similarChunks in
        let diagnosticPrompt := diagnostic_prompt context symptomList in
        let '(client, w1) := initializeHF w in
        match client with
        | None => (Err (diag_failed not_configured), w1)
        | Some c =>
            let uniqueSeed := Z.rem (clock w1) 1000 in
            let response :=
              match diag_generate svc c
                      (diag_scope symptomList diagnosticQuery context diagnosticPrompt uniqueSeed) with
              | Ok r => r
              | Err _ => fallback_response symptoms
              end in
            (Ok (parse_diagnosis response), w1)
        end
  end.

(** ** Predicates on text used in the statements *)

Fixpoint str_forall (p : ascii -> bool) (s : string) : bool :=
  match s with
  | EmptyString => true
  | String c s' => p c && str_forall p s'
  end.

Definition all_space (s : string) : bool := str_forall is_space s.

Fixpoint last_char (s : string) : option ascii :=
  match s with
  | EmptyString => None
  | String c EmptyString => Some c
  | String _ s' => last_char s'
  end.

(** Some position of [s] starts with [w], case-insensitively. *)
Fixpoint occurs_ci (w s : string) : bool :=
  match strip_prefix_ci w s with
  | Some _ => true
  | None =>
      match s with
      | EmptyString => false
      | String _ s' => occurs_ci w s'
      end
  end.


Definition no_colon (s : string) : bool :=
  str_forall (fun c => negb (Ascii.eqb c ":")) s.

(** A one-line field value: non-empty, already trimmed, no line break and no
    colon. *)
Definition line_ok (s : string) : bool :=
  negb (s =? "") && (trim s =? s) &&
  str_forall (fun c => negb (is_line_terminator c)) s && no_colon s.

(** The lazy group may run over all of [e] when followed by [rest]: no stop
    alternative fires inside [e] and [.] accepts each of its characters. *)
Fixpoint passes (r : LabelRegex) (e rest : string) : bool :=
  match e with
  | EmptyString => true
  | String c e' =>
      negb (stops_at r (String c (e' ++ rest))) && dot_matches r c && passes r e' rest
  end.

(** ** Concrete collaborators used at the witnesses *)

Definition sample_chunk : TextChunk :=
  {| text := "Pneumonia in calves presents with fever and laboured breathing.";
     embedding := [1%Q; 0%Q]; chunk_id := "c1" |}.

(** A provider stack whose services all answer: one chunk is always
    retrieved and the model echoes its system message after a DISEASE label. *)
Definition echo_services : Services :=
  {| generateEmbedding := fun _ => Ok [1%Q; 0%Q];
     findSimilarChunks := fun _ _ _ => [ {| chunk := sample_chunk; similarity := 1%Q |} ];
     chatCompletion := fun _ req =>
       match messages req with
       | m :: _ => Ok (Some ("DISEASE: " ++ content m))
       | [] => Ok None
       end |}.

(** Same retrieval, but every chat completion is rejected. *)
Definition failing_services : Services :=
  {| generateEmbedding := fun _ => Ok [1%Q; 0%Q];
     findSimilarChunks := fun _ _ _ => [ {| chunk := sample_chunk; similarity := 1%Q |} ];
     chatCompletion := fun _ _ => Err "Request failed with status code 503" |}.

(** Retrieval finds nothing. *)
Definition empty_services : Services :=
  {| generateEmbedding := fun _ => Ok [1%Q; 0%Q];
     findSimilarChunks := fun _ _ _ => [];
     chatCompletion := fun _ _ => Err "Request failed with status code 503" |}.

(** The embedding service is down. *)
Definition offline_services : Services :=
  {| generateEmbedding := fun _ => Err "connect ECONNREFUSED";
     findSimilarChunks := fun _ _ _ => [];
     chatCompletion := fun _ _ => Err "Request failed with status code 503" |}.

Definition keyed_world : World :=
  {| HUGGINGFACE_API_KEY := Some "hf_key"; hfClient := None; clock := 1700000000123 |}.

Definition keyless_world : World :=
  {| HUGGINGFACE_API_KEY := None; hfClient := None; clock := 1700000000123 |}.

(** The world of a later call: same environment and singleton, new clock. *)
Definition at_time (w : World) (t : Z) : World :=
  {| HUGGINGFACE_API_KEY := HUGGINGFACE_API_KEY w; hfClient := hfClient w; clock := t |}.

(** ** Generic lemmas: strings and trimming *)

Lemma rtrim_empty_all_space : forall s, rtrim s = "" -> all_space s = true.
Proof.
  induction s as [|c s IH]; simpl; intros H; [reflexivity|].
  destruct (rtrim s =? "") eqn:E; destruct (is_space c) eqn:Sc; simpl in *;
    try discriminate.
  apply String.eqb_eq in E. unfold all_space in *; simpl; rewrite Sc; auto.
Qed.

Lemma ltrim_all_space : forall s, all_space (ltrim s) = true -> all_space s = true.
Proof.
  induction s as [|c s IH]; simpl; intros H; [reflexivity|].
  destruct (is_space c) eqn:Sc; unfold all_space in *; simpl in *.
  - rewrite Sc; simpl; auto.
  - rewrite Sc in H; rewrite Sc; exact H.
Qed.

Lemma trim_empty_all_space : forall s, trim s = "" -> all_space s = true.
Proof.
  intros s H. apply ltrim_all_space, rtrim_empty_all_space, H.
Qed.

Lemma trim_cons_nonempty : forall c s, is_space c = false -> trim (String c s) <> "".
Proof.
  intros c s Sc H. apply trim_empty_all_space in H.
  unfold all_space in H; simpl in H; rewrite Sc in H; discriminate.
Qed.

Lemma all_space_last : forall s x, all_space s = true -> last_char s = Some x -> is_space x = true.
Proof.
  induction s as [|c s IH]; intros x H L; [discriminate|].
  unfold all_space in H; simpl in H. apply andb_prop in H as [Hc Hs].
  destruct s as [|c' s'].
  - simpl in L. injection L as <-. exact Hc.
  - apply IH; [exact Hs | exact L].
Qed.

Lemma last_char_app : forall a b, b <> "" -> last_char (a ++ b) = last_char b.
Proof.
  induction a as [|c a IH]; intros b Hb; [reflexivity|].
  simpl. rewrite (IH b Hb).
  destruct a; simpl; [destruct b; [congruence|reflexivity]|].
  reflexivity.
Qed.

Lemma length_ltrim : forall s, String.length (ltrim s) <= String.length s.
Proof.
  induction s as [|c s IH]; simpl; [lia|].
  destruct (is_space c); simpl; lia.
Qed.

Lemma length_rtrim : forall s, String.length (rtrim s) <= String.length s.
Proof.
  induction s as [|c s IH]; simpl; [lia|].
  destruct ((rtrim s =? "") && is_space c); simpl; lia.
Qed.

Lemma trim_fixed_head : forall c s, trim (String c s) = String c s -> is_space c = false.
Proof.
  intros c s H. destruct (is_space c) eqn:Sc; [|reflexivity].
  exfalso. unfold trim in H. simpl in H. rewrite Sc in H.
  pose proof (length_rtrim (ltrim s)) as L1. pose proof (length_ltrim s) as L2.
  rewrite H in L1. simpl in L1. lia.
Qed.

(** ** Generic lemmas: the label regexes *)

Lemma ci_eq_colon_l : forall a, ci_eq ":"%char a = true -> a = ":"%char.
Proof.
  intros [[] [] [] [] [] [] [] []]; vm_compute; intros H;
    first [reflexivity | discriminate].
Qed.

Lemma ci_eq_nl_r : forall a, ci_eq a "010"%char = true -> a = "010"%char.
Proof.
  intros [[] [] [] [] [] [] [] []]; vm_compute; intros H;
    first [reflexivity | discriminate].
Qed.

Definition no_nl (s : string) : bool := str_forall (fun c => negb (Ascii.eqb c "010"%char)) s.

Definition nl_or_end (rest : string) : Prop :=
  rest = "" \/ exists r', rest = String "010"%char r'.

(** A label containing a colon and no line feed cannot start inside a
    colon-free block followed by a line feed or the end of the text. *)
Lemma strip_none_no_colon : forall L s rest,
  no_colon L = false -> no_nl L = true -> no_colon s = true -> s <> "" ->
  nl_or_end rest -> strip_prefix_ci L (s ++ rest) = None.
Proof.
  induction L as [|l L IH]; intros s rest HL Hnl Hs Hne Hrest; [discriminate|].
  destruct s as [|a s']; [congruence|].
  simpl. destruct (ci_eq l a) eqn:E; [|reflexivity].
  unfold no_colon, no_nl in *; simpl in HL, Hs, Hnl.
  destruct (Ascii.eqb l ":") eqn:El.
  - apply Ascii.eqb_eq in El; subst l. apply ci_eq_colon_l in E; subst a.
    simpl in Hs; discriminate.
  - simpl in HL, Hnl. apply andb_prop in Hnl as [_ Hnl].
    apply andb_prop in Hs as [_ Hs].
    destruct s' as [|a' s''].
    + simpl. destruct Hrest as [-> | [r' ->]].
      * destruct L; [discriminate | reflexivity].
      * destruct L as [|l' L']; [discriminate|]. simpl.
        destruct (ci_eq l' "010"%char) eqn:E'; [|reflexivity].
        apply ci_eq_nl_r in E'; subst l'. simpl in Hnl; discriminate.
    + apply IH; auto; discriminate.
Qed.

Lemma search_skip : forall r d rest,
  no_colon (label r) = false -> no_nl (label r) = true ->
  no_colon d = true -> nl_or_end rest ->
  search r (d ++ rest) = search r rest.
Proof.
  intros r d rest HL Hnl. induction d as [|a d IH]; intros Hd Hrest; [reflexivity|].
  assert (Hs : strip_prefix_ci (label r) (String a d ++ rest) = None)
    by (apply strip_none_no_colon; auto; discriminate).
  simpl in Hs |- *. unfold match_at. rewrite Hs.
  apply IH; [|exact Hrest].
  unfold no_colon in *; simpl in Hd; apply andb_prop in Hd as [_ Hd]; exact Hd.
Qed.

Lemma lazy_rest_unfold : forall r u,
  lazy_rest r u =
  if stops_at r u then Some EmptyString
  else match u with
       | EmptyString => None
       | String c u' =>
           if dot_matches r c
           then match lazy_rest r u' with Some x => Some (String c x) | None => None end
           else None
       end.
Proof. intros r [|c u]; reflexivity. Qed.

Lemma lazy_rest_passes : forall r e rest,
  passes r e rest = true -> stops_at r rest = true -> lazy_rest r (e ++ rest) = Some e.
Proof.
  intros r e rest. induction e as [|c e IH]; intros Hp Hs.
  - simpl. rewrite lazy_rest_unfold, Hs. reflexivity.
  - simpl in Hp. apply andb_prop in Hp as [Hp He]. apply andb_prop in Hp as [Hst Hd].
    apply negb_true_iff in Hst.
    change (String c e ++ rest) with (String c (e ++ rest)).
    rewrite lazy_rest_unfold, Hst, Hd, (IH He Hs). reflexivity.
Qed.

(** The capture over a trimmed, non-empty field value. *)
Lemma ws_star_line : forall r e rest,
  e <> "" -> trim e = e -> passes r e rest = true -> stops_at r rest = true ->
  ws_star r (e ++ rest) = Some e.
Proof.
  intros r [|c e] rest Hne Ht Hp Hs; [congruence|].
  pose proof (trim_fixed_head c e Ht) as Sc.
  simpl in Hp. apply andb_prop in Hp as [Hp He]. apply andb_prop in Hp as [_ Hd].
  simpl. rewrite Sc. unfold lazy_plus. rewrite Hd, (lazy_rest_passes r e rest He Hs).
  reflexivity.
Qed.


Definition single_line (s : string) : bool :=
  str_forall (fun c => negb (is_line_terminator c)) s.

Lemma not_lt_not_nl : forall c, is_line_terminator c = false -> Ascii.eqb c "010"%char = false.
Proof.
  intros c H. destruct (Ascii.eqb c "010"%char) eqn:E; [|reflexivity].
  apply Ascii.eqb_eq in E; subst; discriminate.
Qed.

Lemma passes_single_line : forall r e rest,
  stops r = [AtNewline; AtEnd] -> dotAll r = false -> single_line e = true ->
  passes r e rest = true.
Proof.
  intros r e rest Hst Hd. induction e as [|c e IH]; intros Hl; [reflexivity|].
  unfold single_line in Hl; simpl in Hl; apply andb_prop in Hl as [Hc He].
  apply negb_true_iff in Hc.
  simpl. unfold stops_at, dot_matches. rewrite Hst, Hd. simpl.
  rewrite (not_lt_not_nl c Hc), Hc. simpl. apply IH; exact He.
Qed.

Lemma strip_app_back : forall w u rest,
  no_nl w = true -> nl_or_end rest ->
  strip_prefix_ci w (u ++ rest) <> None -> strip_prefix_ci w u <> None.
Proof.
  induction w as [|l w IH]; intros u rest Hw Hr H; [discriminate|].
  unfold no_nl in Hw; simpl in Hw; apply andb_prop in Hw as [Hl Hw].
  destruct u as [|a u].
  - exfalso. apply H. simpl. destruct Hr as [-> | [r' ->]]; [reflexivity|].
    destruct (ci_eq l "010"%char) eqn:E; [|reflexivity].
    apply ci_eq_nl_r in E; subst l; discriminate.
  - simpl in H |- *. destruct (ci_eq l a); [|exact H].
    apply (IH u rest Hw Hr H).
Qed.

Lemma occurs_ci_cons : forall w c e,
  occurs_ci w (String c e) = false ->
  strip_prefix_ci w (String c e) = None /\ occurs_ci w e = false.
Proof.
  intros w c e H. simpl in H.
  destruct (strip_prefix_ci w (String c e)); [discriminate|]. auto.
Qed.

Lemma passes_explanation : forall e rest,
  single_line e = true -> occurs_ci "TREATMENT" e = false -> nl_or_end rest ->
  passes explanation_re e rest = true.
Proof.
  intros e rest. induction e as [|c e IH]; intros Hl Ho Hr; [reflexivity|].
  unfold single_line in Hl; simpl in Hl; apply andb_prop in Hl as [Hc He].
  apply negb_true_iff in Hc.
  apply occurs_ci_cons in Ho as [Hs Ho].
  assert (Hs' : strip_prefix_ci "TREATMENT" (String c (e ++ rest)) = None).
  { destruct (strip_prefix_ci "TREATMENT" (String c (e ++ rest))) eqn:E; [|reflexivity].
    exfalso. apply (strip_app_back "TREATMENT" (String c e) rest); auto.
    change (String c e ++ rest) with (String c (e ++ rest)); rewrite E; discriminate. }
  change (passes explanation_re (String c e) rest)
    with (negb (stops_at explanation_re (String c (e ++ rest)))
          && dot_matches explanation_re c && passes explanation_re e rest).
  unfold stops_at, explanation_re; cbn [existsb stops stop_at].
  rewrite (not_lt_not_nl c Hc), Hs'. simpl. apply IH; auto.
Qed.

Lemma search_unfold : forall r s,
  search r s =
  match match_at r s with
  | Some c => Some c
  | None => match s with EmptyString => None | String _ s' => search r s' end
  end.
Proof. intros r [|c s]; reflexivity. Qed.

Lemma app_nil_r_str : forall s, s ++ "" = s.
Proof. induction s as [|c s IH]; simpl; [reflexivity | rewrite IH; reflexivity]. Qed.

Lemma app_assoc_str : forall a b c, (a ++ b) ++ c = a ++ (b ++ c).
Proof. induction a as [|x a IH]; intros b c; simpl; [reflexivity | rewrite IH; reflexivity]. Qed.

Lemma line_ok_spec : forall s, line_ok s = true ->
  s <> "" /\ trim s = s /\ single_line s = true /\ no_colon s = true.
Proof.
  intros s H. unfold line_ok in H.
  apply andb_prop in H as [H Hc]. apply andb_prop in H as [H Hl].
  apply andb_prop in H as [He Ht].
  apply negb_true_iff, String.eqb_neq in He. apply String.eqb_eq in Ht.
  repeat split; assumption.
Qed.


Lemma nl_or_end_empty : nl_or_end "".
Proof. left. reflexivity. Qed.

Lemma stops_at_nl : forall r X, In AtNewline (stops r) -> stops_at r (String "010"%char X) = true.
Proof.
  intros r X H. unfold stops_at. apply existsb_exists. exists AtNewline. split; auto.
Qed.

Lemma stops_at_end : forall r, In AtEnd (stops r) -> stops_at r "" = true.
Proof.
  intros r H. unfold stops_at. apply existsb_exists. exists AtEnd. split; auto.
Qed.

Lemma passes_treatment : forall t rest, passes treatment_re t rest = true.
Proof.
  induction t as [|c t IH]; intros rest; [reflexivity|].
  simpl. apply IH.
Qed.

(** Step [search] over a colon-free block followed by a line feed or the end. *)
Ltac skip_block H :=
  rewrite search_skip;
    [| reflexivity | reflexivity | exact H
     | first [left; reflexivity | right; eexists; reflexivity]].

Lemma disease_line : forall d X, line_ok d = true ->
  search disease_re ("DISEASE: " ++ d ++ nl ++ X) = Some d.
Proof.
  intros d X H. apply line_ok_spec in H as (Hne & Ht & Hl & Hc).
  rewrite search_unfold. unfold match_at. simpl.
  rewrite ws_star_line;
    [reflexivity | exact Hne | exact Ht | apply passes_single_line; auto
    | apply stops_at_nl; simpl; auto].
Qed.

Lemma confidence_line : forall d c X, line_ok d = true -> line_ok c = true ->
  search confidence_re ("DISEASE: " ++ d ++ nl ++ "CONFIDENCE: " ++ c ++ nl ++ X) = Some c.
Proof.
  intros d c X Hd H. apply line_ok_spec in Hd as (_ & _ & _ & Hdc).
  apply line_ok_spec in H as (Hne & Ht & Hl & Hc).
  simpl. skip_block Hdc. simpl. unfold match_at. simpl.
  rewrite ws_star_line;
    [reflexivity | exact Hne | exact Ht | apply passes_single_line; auto
    | apply stops_at_nl; simpl; auto].
Qed.

Lemma explanation_line : forall d c e rest,
  line_ok d = true -> line_ok c = true -> line_ok e = true ->
  occurs_ci "TREATMENT" e = false -> nl_or_end rest ->
  search explanation_re
    ("DISEASE: " ++ d ++ nl ++ "CONFIDENCE: " ++ c ++ nl ++ "EXPLANATION: " ++ e ++ rest)
  = Some e.
Proof.
  intros d c e rest Hd Hc0 H Ho Hr.
  apply line_ok_spec in Hd as (_ & _ & _ & Hdc).
  apply line_ok_spec in Hc0 as (_ & _ & _ & Hcc).
  apply line_ok_spec in H as (Hne & Ht & Hl & Hc).
  simpl. skip_block Hdc. simpl. skip_block Hcc. simpl. unfold match_at. simpl.
  rewrite ws_star_line;
    [reflexivity | exact Hne | exact Ht | apply passes_explanation; auto
    | destruct Hr as [-> | [r' ->]]; [apply stops_at_end | apply stops_at_nl]; simpl; auto].
Qed.

Lemma treatment_line : forall d c e1 e2 t,
  line_ok d = true -> line_ok c = true -> line_ok e1 = true -> no_colon e2 = true ->
  t <> "" -> trim t = t ->
  search treatment_re
    ("DISEASE: " ++ d ++ nl ++ "CONFIDENCE: " ++ c ++ nl ++ "EXPLANATION: " ++ e1 ++ nl ++
     e2 ++ nl ++ "TREATMENT: " ++ t)
  = Some t.
Proof.
  intros d c e1 e2 t Hd Hc He1 He2 Hne Ht.
  apply line_ok_spec in Hd as (_ & _ & _ & Hdc).
  apply line_ok_spec in Hc as (_ & _ & _ & Hcc).
  apply line_ok_spec in He1 as (_ & _ & _ & He1c).
  rewrite <- (app_nil_r_str t).
  simpl. skip_block Hdc. simpl. skip_block Hcc. simpl. skip_block He1c.
  simpl. skip_block He2. simpl. unfold match_at. simpl.
  rewrite ws_star_line;
    [rewrite app_nil_r_str; reflexivity | exact Hne | exact Ht | apply passes_treatment
    | apply stops_at_end; simpl; auto].
Qed.

Lemma search_absent : forall r s, occurs_ci (label r) s = false -> search r s = None.
Proof.
  intros r s. induction s as [|a s IH]; intros H.
  - simpl in H. unfold search, match_at. destruct (strip_prefix_ci (label r) ""); [discriminate|reflexivity].
  - rewrite search_unfold. unfold match_at.
    apply occurs_ci_cons in H as [H1 H2]. rewrite H1. apply IH, H2.
Qed.

Lemma treatment_absent : forall d c e,
  line_ok d = true -> line_ok c = true -> line_ok e = true ->
  search treatment_re
    ("DISEASE: " ++ d ++ nl ++ "CONFIDENCE: " ++ c ++ nl ++ "EXPLANATION: " ++ e) = None.
Proof.
  intros d c e Hd Hc He.
  apply line_ok_spec in Hd as (_ & _ & _ & Hdc).
  apply line_ok_spec in Hc as (_ & _ & _ & Hcc).
  apply line_ok_spec in He as (_ & _ & _ & Hec).
  rewrite <- (app_nil_r_str e).
  simpl. skip_block Hdc. simpl. skip_block Hcc. simpl. skip_block Hec. reflexivity.
Qed.

(** ** Lemmas on the keyword fallback *)

Lemma lazy_rest_explanation_total : forall u, exists x, lazy_rest explanation_re u = Some x.
Proof.
  induction u as [|c u [x IH]].
  - exists "". reflexivity.
  - rewrite lazy_rest_unfold.
    destruct (stops_at explanation_re (String c u)); [eexists; reflexivity|].
    simpl. rewrite IH. eexists; reflexivity.
Qed.

Lemma lazy_rest_treatment : forall u, lazy_rest treatment_re u = Some u.
Proof.
  induction u as [|c u IH]; [reflexivity|].
  rewrite lazy_rest_unfold. simpl. rewrite IH. reflexivity.
Qed.

Lemma strip_prefix_ci_app : forall p s t, strip_prefix_ci p s = Some t -> exists q, s = q ++ t.
Proof.
  induction p as [|a p IH]; intros s t H.
  - simpl in H. injection H as <-. exists "". reflexivity.
  - destruct s as [|b s]; simpl in H; [discriminate|].
    destruct (ci_eq a b); [|discriminate].
    destruct (IH s t H) as [q ->]. exists (String b q). reflexivity.
Qed.

Lemma ws_star_treatment : forall t x, ws_star treatment_re t = Some x ->
  x <> "" /\ exists p, t = p ++ x.
Proof.
  induction t as [|c t IH]; intros x H; [discriminate|].
  assert (Hl : lazy_plus treatment_re (String c t) = Some x -> x <> "" /\ exists p, String c t = p ++ x).
  { unfold lazy_plus. simpl. rewrite lazy_rest_treatment. intros E. injection E as <-.
    split; [discriminate | exists ""; reflexivity]. }
  simpl in H. destruct (is_space c); [|apply Hl, H].
  destruct (ws_star treatment_re t) as [y|] eqn:E; [|apply Hl, H].
  injection H as <-. destruct (IH y eq_refl) as [Hne [p ->]].
  split; [exact Hne | exists (String c p); reflexivity].
Qed.

(** A TREATMENT capture is a non-empty suffix of the text. *)
Lemma search_treatment_suffix : forall s x, search treatment_re s = Some x ->
  x <> "" /\ exists p, s = p ++ x.
Proof.
  induction s as [|a s IH]; intros x H.
  - discriminate.
  - rewrite search_unfold in H. unfold match_at in H.
    destruct (strip_prefix_ci (label treatment_re) (String a s)) as [t|] eqn:E.
    + destruct (ws_star treatment_re t) as [y|] eqn:W.
      * injection H as <-. destruct (ws_star_treatment t y W) as [Hne [p ->]].
        destruct (strip_prefix_ci_app _ _ _ E) as [q Hq].
        split; [exact Hne | exists (q ++ p); rewrite Hq; symmetry; apply app_assoc_str].
      * destruct (IH x H) as [Hne [p ->]].
        split; [exact Hne | exists (String a p); reflexivity].
    + destruct (IH x H) as [Hne [p ->]].
      split; [exact Hne | exists (String a p); reflexivity].
Qed.

Lemma last_char_app_some : forall a b x, last_char b = Some x -> last_char (a ++ b) = Some x.
Proof.
  intros a b x H. rewrite last_char_app; [exact H|].
  intros ->. discriminate.
Qed.

(** Whatever TREATMENT captures, its trimmed value is non-empty when the text
    ends in a non-space character. *)
Lemma field_treatment_nonempty : forall s y,
  last_char s = Some y -> is_space y = false ->
  field treatment_re s "Consult veterinarian" <> "".
Proof.
  intros s y L Sy. unfold field.
  destruct (search treatment_re s) as [x|] eqn:E; [|discriminate].
  destruct (search_treatment_suffix s x E) as [Hne [p ->]].
  intros Ht. apply trim_empty_all_space in Ht.
  rewrite last_char_app in L by exact Hne.
  rewrite (all_space_last x y Ht L) in Sy. discriminate.
Qed.

Lemma classify_cases : forall symptoms,
  classify symptoms = (respiratory_disease, respiratory_text) \/
  classify symptoms = (gastro_disease, gastro_text) \/
  classify symptoms = (musculo_disease, musculo_text) \/
  classify symptoms = (mastitis_disease, mastitis_text) \/
  classify symptoms = (general_disease, general_text).
Proof.
  intros symptoms. unfold classify.
  destruct (mentions symptoms "fever" && mentions symptoms "respiratory"); [tauto|].
  destruct (mentions symptoms "diarrhea"); [tauto|].
  destruct (mentions symptoms "lameness"); [tauto|].
  destruct (mentions symptoms "milk"); tauto.
Qed.

Lemma classify_line_ok : forall symptoms, line_ok (fst (classify symptoms)) = true.
Proof.
  intros symptoms.
  destruct (classify_cases symptoms) as [E|[E|[E|[E|E]]]]; rewrite E; vm_compute; reflexivity.
Qed.

Lemma fallback_shape : forall symptoms, exists u,
  fallback_response symptoms =
  "DISEASE: " ++ fst (classify symptoms) ++ nl ++ "CONFIDENCE: Medium" ++ nl ++
  "EXPLANATION: " ++ String "T" u ++ nl ++ "TREATMENT: " ++ fallback_treatment.
Proof.
  intros symptoms. unfold fallback_response, fallback_intro.
  destruct (classify symptoms) as [D E]. simpl fst. eexists. reflexivity.
Qed.

Lemma fallback_last_char : forall symptoms, last_char (fallback_response symptoms) = Some "."%char.
Proof.
  intros symptoms. unfold fallback_response. destruct (classify symptoms) as [D E].
  repeat apply last_char_app_some. vm_compute. reflexivity.
Qed.

Lemma fallback_fields : forall D u,
  line_ok D = true ->
  let resp := "DISEASE: " ++ D ++ nl ++ "CONFIDENCE: Medium" ++ nl ++
              "EXPLANATION: " ++ String "T" u ++ nl ++ "TREATMENT: " ++ fallback_treatment in
  field disease_re resp "Unable to diagnose" = D /\
  field confidence_re resp "Low" = "Medium" /\
  field explanation_re resp resp <> "".
Proof.
  intros D u HD resp. subst resp. unfold field.
  assert (HD' := HD). apply line_ok_spec in HD' as (_ & Ht & _ & Hdc).
  split; [|split].
  - rewrite disease_line by exact HD. exact Ht.
  - change "CONFIDENCE: Medium" with ("CONFIDENCE: " ++ "Medium").
    rewrite (app_assoc_str "CONFIDENCE: " "Medium").
    rewrite confidence_line by (exact HD || reflexivity). reflexivity.
  - simpl. skip_block Hdc. simpl. unfold match_at. simpl.
    match goal with |- context [lazy_rest explanation_re ?v] =>
      destruct (lazy_rest_explanation_total v) as [x Hx]; rewrite Hx end.
    apply trim_cons_nonempty. reflexivity.
Qed.

(** ** Lemmas on the keyword rules *)

Lemma prefix_app_l : forall p q s, prefix (p ++ q) s = true -> prefix p s = true.
Proof.
  induction p as [|a p IH]; intros q s H; [destruct s; reflexivity|].
  destruct s as [|b s]; simpl in *; [discriminate|].
  destruct (ascii_dec a b); [apply (IH q s H) | discriminate].
Qed.

Lemma includes_app_l : forall s p q, includes s (p ++ q) = true -> includes s p = true.
Proof.
  induction s as [|c s IH]; intros p q H.
  - destruct p as [|a p]; [reflexivity|]. simpl in H. discriminate.
  - change (prefix (p ++ q) (String c s) || includes s (p ++ q) = true) in H.
    change (prefix p (String c s) || includes s p = true).
    apply orb_true_iff in H as [H|H].
    + rewrite (prefix_app_l p q _ H). reflexivity.
    + rewrite (IH p q H). apply orb_true_r.
Qed.

Lemma mentions_spec : forall symptoms kw,
  mentions symptoms kw = true <-> exists s, In s symptoms /\ includes (toLowerCase s) kw = true.
Proof. intros symptoms kw. unfold mentions. apply existsb_exists. Qed.

(** ** Lemmas on the service pipeline *)

Lemma initializeHF_clock : forall w cl w1, initializeHF w = (cl, w1) -> clock w1 = clock w.
Proof.
  intros w cl w1 H. unfold initializeHF in H.
  destruct (hfClient w); [injection H as _ <-; reflexivity|].
  destruct (HUGGINGFACE_API_KEY w) as [k|]; [|injection H as _ <-; reflexivity].
  destruct (k =? ""); injection H as _ <-; reflexivity.
Qed.

(** A later call sees the world the first one left behind, at a new time:
    the singleton answers as before. *)
Lemma initializeHF_at_time : forall w cl w1 t,
  initializeHF w = (cl, w1) -> initializeHF (at_time w1 t) = (cl, at_time w1 t).
Proof.
  intros w cl w1 t H. unfold initializeHF in *.
  destruct (hfClient w) as [c|] eqn:Hc; [injection H as <- <-; simpl; rewrite Hc; reflexivity|].
  destruct (HUGGINGFACE_API_KEY w) as [k|] eqn:Hk.
  - destruct (k =? "") eqn:Ek.
    + injection H as <- <-. simpl. rewrite Hc, Hk, Ek. reflexivity.
    + injection H as <- <-. reflexivity.
  - injection H as <- <-. simpl. rewrite Hc, Hk. reflexivity.
Qed.

Lemma rag_generate_context : forall svc c question topK prompt,
  rag_generate svc c (rag_scope question topK prompt) = Err "context is not defined".
Proof. intros. reflexivity. Qed.

Lemma rag_configured : forall svc question allChunks topK w e similar c w1,
  generateEmbedding svc question = Ok e ->
  findSimilarChunks svc e allChunks topK = similar -> similar <> [] ->
  initializeHF w = (Some c, w1) ->
  generateRAGAnswer svc question allChunks topK w =
  (Ok {| answer := rag_fallback_answer question (map (fun s => text (chunk s)) similar);
         sources := map to_source similar |}, w1).
Proof.
  intros svc question allChunks topK w e similar c w1 He Hs Hne Hi.
  unfold generateRAGAnswer. rewrite He, Hs. cbv zeta.
  destruct similar as [|s0 ss]; [contradiction|]. simpl length. cbn iota beta.
  rewrite Hi, rag_generate_context. reflexivity.
Qed.

Lemma diag_generate_fails : forall svc c scope,
  (forall req, exists m, chatCompletion svc c req = Err m) ->
  exists m, diag_generate svc c scope = Err m.
Proof.
  intros svc c scope H. unfold diag_generate.
  destruct (eval_template scope diag_system_template); [|eauto].
  destruct (eval_template scope diag_user_template); [|eauto].
  match goal with |- context [chatCompletion svc c ?req] =>
    destruct (H req) as [m ->] end. eauto.
Qed.

Lemma diagnose_fallback : forall svc symptoms allChunks w e c w1,
  generateEmbedding svc (diagnostic_query (symptom_list symptoms)) = Ok e ->
  findSimilarChunks svc e allChunks 5 <> [] ->
  initializeHF w = (Some c, w1) ->
  (forall req, exists m, chatCompletion svc c req = Err m) ->
  diagnoseDiseaseFromSymptoms svc symptoms allChunks w =
  (Ok (parse_diagnosis (fallback_response symptoms)), w1).
Proof.
  intros svc symptoms allChunks w e c w1 He Hne Hi Hf.
  unfold diagnoseDiseaseFromSymptoms. cbv zeta. rewrite He.
  destruct (findSimilarChunks svc e allChunks 5) as [|s0 ss]; [contradiction|].
  simpl length. cbn iota beta. rewrite Hi.
  match goal with |- context [diag_generate svc c ?scope] =>
    destruct (diag_generate_fails svc c scope Hf) as [m ->] end.
  reflexivity.
Qed.

Lemma fallback_parse : forall symptoms,
  let d := parse_diagnosis (fallback_response symptoms) in
  disease d = fst (classify symptoms) /\ confidence d = "Medium" /\
  explanation d <> "" /\ treatment d <> "" /\
  rawResponse d = Some (fallback_response symptoms).
Proof.
  intros symptoms d. subst d. unfold parse_diagnosis. cbn [disease confidence explanation treatment rawResponse].
  assert (Ht := field_treatment_nonempty _ _ (fallback_last_char symptoms) eq_refl).
  destruct (fallback_shape symptoms) as [u Hu]. rewrite Hu in *.
  destruct (fallback_fields (fst (classify symptoms)) u (classify_line_ok symptoms)) as (H1 & H2 & H3).
  repeat split; assumption || reflexivity.
Qed.





Lemma rag_not_configured : forall svc question allChunks topK w e w1,
  generateEmbedding svc question = Ok e ->
  findSimilarChunks svc e allChunks topK <> [] ->
  initializeHF w = (None, w1) ->
  generateRAGAnswer svc question allChunks topK w = (Err (rag_failed not_configured), w1).
Proof.
  intros svc question allChunks topK w e w1 He Hne Hi.
  unfold generateRAGAnswer. rewrite He. cbv zeta.
  destruct (findSimilarChunks svc e allChunks topK) as [|s0 ss]; [contradiction|].
  simpl length. cbn iota beta. rewrite Hi. reflexivity.
Qed.

Lemma diag_not_configured : forall svc symptoms allChunks w e w1,
  generateEmbedding svc (diagnostic_query (symptom_list symptoms)) = Ok e ->
  findSimilarChunks svc e allChunks 5 <> [] ->
  initializeHF w = (None, w1) ->
  diagnoseDiseaseFromSymptoms svc symptoms allChunks w = (Err (diag_failed not_configured), w1).
Proof.
  intros svc symptoms allChunks w e w1 He Hne Hi.
  unfold diagnoseDiseaseFromSymptoms. cbv zeta. rewrite He.
  destruct (findSimilarChunks svc e allChunks 5) as [|s0 ss]; [contradiction|].
  simpl length. cbn iota beta. rewrite Hi. reflexivity.
Qed.

(** * Claims *)

(** C10: when the embedding step fails, both operations end in an error,
    with no fallback result, whose message is the operation's prefix followed
    by the original cause message; the world is left untouched. *)
Theorem embedding_failure_fatal : forall svc question allChunks topK symptoms chunks w m,
  (generateEmbedding svc question = Err m ->
   generateRAGAnswer svc question allChunks topK w =
   (Err ("Failed to generate answer: " ++ m), w)) /\
  (generateEmbedding svc (diagnostic_query (symptom_list symptoms)) = Err m ->
   diagnoseDiseaseFromSymptoms svc symptoms chunks w =
   (Err ("Failed to diagnose disease: " ++ m), w)).
Proof.
  intros svc question allChunks topK symptoms chunks w m. split; intros H.
  - unfold generateRAGAnswer. rewrite H. reflexivity.
  - unfold diagnoseDiseaseFromSymptoms. cbv zeta. rewrite H. reflexivity.
Qed.

Lemma embedding_failure_fatal_witness :
  generateRAGAnswer offline_services "Why is my cow coughing?" [sample_chunk] 3 keyed_world =
  (Err ("Failed to generate answer: " ++ "connect ECONNREFUSED"), keyed_world) /\
  diagnoseDiseaseFromSymptoms offline_services ["fever"] [sample_chunk] keyed_world =
  (Err ("Failed to diagnose disease: " ++ "connect ECONNREFUSED"), keyed_world).
Proof.
  destruct (embedding_failure_fatal offline_services "Why is my cow coughing?" [sample_chunk] 3
              ["fever"] [sample_chunk] keyed_world "connect ECONNREFUSED") as [H1 H2].
  split; [apply H1 | apply H2]; reflexivity.
Defined.

(** C5: when retrieval returns no chunk, generateRAGAnswer returns the fixed
    insufficient-information answer with no sources, and diagnose returns the
    canned Unknown / Low / General care diagnosis; each holds on its own
    hypotheses.  Neither initialises the client (the world is unchanged) and
    neither depends on the chat service.  The canned diagnosis has no
    rawResponse property ([None]). *)
Theorem no_chunks_canned : forall svc question allChunks topK symptoms chunks w,
  (forall e, generateEmbedding svc question = Ok e ->
     findSimilarChunks svc e allChunks topK = [] ->
     generateRAGAnswer svc question allChunks topK w =
     (Ok {| answer := no_info_answer; sources := [] |}, w)) /\
  (forall e', generateEmbedding svc (diagnostic_query (symptom_list symptoms)) = Ok e' ->
     findSimilarChunks svc e' chunks 5 = [] ->
     diagnoseDiseaseFromSymptoms svc symptoms chunks w =
     (Ok {| disease := "Unknown"; confidence := "Low";
            explanation := "Insufficient information in knowledge base to diagnose based on these symptoms.";
            treatment := "General care"; rawResponse := None |}, w)).
Proof.
  intros svc question allChunks topK symptoms chunks w. split.
  - intros e He Hs. unfold generateRAGAnswer. rewrite He, Hs. reflexivity.
  - intros e' He' Hs'. unfold diagnoseDiseaseFromSymptoms. cbv zeta. rewrite He', Hs'.
    reflexivity.
Qed.

Lemma no_chunks_canned_witness :
  generateRAGAnswer empty_services "Why is my cow coughing?" [] 3 keyed_world =
  (Ok {| answer := no_info_answer; sources := [] |}, keyed_world) /\
  diagnoseDiseaseFromSymptoms empty_services ["fever"] [] keyed_world =
  (Ok {| disease := "Unknown"; confidence := "Low";
         explanation := "Insufficient information in knowledge base to diagnose based on these symptoms.";
         treatment := "General care"; rawResponse := None |}, keyed_world).
Proof.
  destruct (no_chunks_canned empty_services "Why is my cow coughing?" [] 3 ["fever"] []
              keyed_world) as [H1 H2].
  split; [apply (H1 [1%Q; 0%Q]) | apply (H2 [1%Q; 0%Q])]; reflexivity.
Defined.

(** C5 counterexample: the canned diagnosis carries no rawResponse, so it is
    not the diagnosis whose rawResponse is the empty string. *)
Lemma no_chunks_canned_counterexample :
  fst (diagnoseDiseaseFromSymptoms empty_services ["fever"] [] keyed_world) <>
  Ok {| disease := "Unknown"; confidence := "Low";
        explanation := "Insufficient information in knowledge base to diagnose based on these symptoms.";
        treatment := "General care"; rawResponse := Some "" |}.
Proof. vm_compute. intros H. discriminate H. Qed.

(** C1: once the embedding succeeds and retrieval returns at least one
    chunk, the model path cannot produce the answer: building the user
    message reads the unbound [context] and throws before any provider call,
    for every client and every chat service.  Every answer the call returns
    is the degraded answer over the retrieved chunks (the 'Unable to
    generate' branch is never taken), with their sources; it does return one
    whenever the client is configured, and the only other outcome is the
    missing-key error. *)
Theorem rag_answer_is_degraded : forall svc question allChunks topK w e similar,
  generateEmbedding svc question = Ok e ->
  findSimilarChunks svc e allChunks topK = similar -> similar <> [] ->
  let relevantTexts := map (fun s => text (chunk s)) similar in
  (forall c, rag_generate svc c (rag_scope question topK (buildRAGPrompt question relevantTexts))
             = Err "context is not defined") /\
  (forall r w', generateRAGAnswer svc question allChunks topK w = (Ok r, w') ->
     answer r = rag_fallback_answer question relevantTexts /\ sources r = map to_source similar) /\
  (forall c w1, initializeHF w = (Some c, w1) ->
     fst (generateRAGAnswer svc question allChunks topK w) =
     Ok {| answer := rag_fallback_answer question relevantTexts;
           sources := map to_source similar |}) /\
  (forall m, fst (generateRAGAnswer svc question allChunks topK w) = Err m ->
     m = rag_failed not_configured).
Proof.
  intros svc question allChunks topK w e similar He Hs Hne relevantTexts.
  split; [intros c; apply rag_generate_context|].
  destruct (initializeHF w) as [[c|] w1] eqn:Hi.
  - rewrite (rag_configured svc question allChunks topK w e similar c w1 He Hs Hne Hi).
    split; [intros r w' H; injection H as <- _; split; reflexivity|].
    split; [intros c' w1' _; reflexivity|].
    intros m H; discriminate H.
  - assert (Hn : generateRAGAnswer svc question allChunks topK w = (Err (rag_failed not_configured), w1)).
    { unfold generateRAGAnswer. rewrite He, Hs. cbv zeta.
      destruct similar as [|s0 ss]; [contradiction|]. simpl length. cbn iota beta.
      rewrite Hi. reflexivity. }
    rewrite Hn. split; [intros r w' H; discriminate H|].
    split; [intros c w1' H; discriminate H|].
    intros m H; injection H as <-; reflexivity.
Qed.

Lemma rag_answer_is_degraded_witness :
  fst (generateRAGAnswer failing_services "Why is my cow coughing?" [sample_chunk] 3 keyed_world) =
  Ok {| answer := rag_fallback_answer "Why is my cow coughing?" [text sample_chunk];
        sources := map to_source [ {| chunk := sample_chunk; similarity := 1%Q |} ] |}.
Proof.
  assert (Hne : [ {| chunk := sample_chunk; similarity := 1%Q |} ] <> []) by discriminate.
  assert (H := rag_answer_is_degraded failing_services "Why is my cow coughing?" [sample_chunk] 3
                 keyed_world [1%Q; 0%Q] [ {| chunk := sample_chunk; similarity := 1%Q |} ]
                 eq_refl eq_refl Hne).
  cbv zeta in H. destruct H as (_ & _ & H3 & _).
  apply (H3 {| accessToken := "hf_key" |}
            {| HUGGINGFACE_API_KEY := Some "hf_key"; hfClient := Some {| accessToken := "hf_key" |};
               clock := 1700000000123 |}).
  reflexivity.
Defined.

(** C4: when the embedding succeeds and at least one chunk is retrieved,
    a configured Hugging Face client makes a failing generation step
    recovered: the call returns a success whose answer is the header, the
    numbered 200-character previews of the retrieved chunks and the closing
    note that quotes the question and points to a veterinarian.  Without a
    configured client the call fails with the missing-key error. *)
Theorem rag_degraded_success : forall svc question allChunks topK w e similar,
  generateEmbedding svc question = Ok e ->
  findSimilarChunks svc e allChunks topK = similar -> similar <> [] ->
  (forall c w1, initializeHF w = (Some c, w1) ->
   (forall req, exists m, chatCompletion svc c req = Err m) ->
   generateRAGAnswer svc question allChunks topK w =
   (Ok {| answer :=
            "Based on the available information in your documents:" ++ nl ++ nl ++
            join (nl ++ nl)
              (mapi (fun i t => nat_str (i + 1) ++ ". " ++ substring 0 200 t ++ "...")
                    (map (fun s => text (chunk s)) similar)) ++
            nl ++ nl ++ "I recommend consulting these sections for more details about " ++
            dq ++ question ++ dq ++
            ". For specific medical advice, please consult with a qualified veterinarian.";
          sources := map to_source similar |}, w1)) /\
  (forall w1, initializeHF w = (None, w1) ->
   generateRAGAnswer svc question allChunks topK w =
   (Err "Failed to generate answer: Hugging Face API key not configured", w1)).
Proof.
  intros svc question allChunks topK w e similar He Hs Hne. split.
  - intros c w1 Hi _.
    rewrite (rag_configured svc question allChunks topK w e similar c w1 He Hs Hne Hi).
    reflexivity.
  - intros w1 Hi. subst similar.
    rewrite (rag_not_configured svc question allChunks topK w e w1 He Hne Hi).
    reflexivity.
Qed.

Lemma rag_degraded_success_witness :
  generateRAGAnswer failing_services "Why is my cow coughing?" [sample_chunk] 3 keyed_world =
  (Ok {| answer :=
           "Based on the available information in your documents:" ++ nl ++ nl ++
           join (nl ++ nl)
             (mapi (fun i t => nat_str (i + 1) ++ ". " ++ substring 0 200 t ++ "...")
                   [text sample_chunk]) ++
           nl ++ nl ++ "I recommend consulting these sections for more details about " ++
           dq ++ "Why is my cow coughing?" ++ dq ++
           ". For specific medical advice, please consult with a qualified veterinarian.";
         sources := map to_source [ {| chunk := sample_chunk; similarity := 1%Q |} ] |},
   {| HUGGINGFACE_API_KEY := Some "hf_key"; hfClient := Some {| accessToken := "hf_key" |};
      clock := 1700000000123 |}) /\
  generateRAGAnswer failing_services "Why is my cow coughing?" [sample_chunk] 3 keyless_world =
  (Err "Failed to generate answer: Hugging Face API key not configured", keyless_world).
Proof.
  destruct (rag_degraded_success failing_services "Why is my cow coughing?" [sample_chunk] 3
              keyed_world [1%Q; 0%Q] [ {| chunk := sample_chunk; similarity := 1%Q |} ]
              eq_refl eq_refl ltac:(discriminate)) as [H1 _].
  destruct (rag_degraded_success failing_services "Why is my cow coughing?" [sample_chunk] 3
              keyless_world [1%Q; 0%Q] [ {| chunk := sample_chunk; similarity := 1%Q |} ]
              eq_refl eq_refl ltac:(discriminate)) as [_ H2].
  split.
  - apply (H1 {| accessToken := "hf_key" |}).
    + reflexivity.
    + intros req. exists "Request failed with status code 503". reflexivity.
  - apply H2. reflexivity.
Defined.

(** C4 counterexample: without an API key the same call surfaces an error
    instead of the degraded success. *)
Lemma rag_degraded_success_counterexample :
  fst (generateRAGAnswer failing_services "Why is my cow coughing?" [sample_chunk] 3 keyless_world) =
  Err "Failed to generate answer: Hugging Face API key not configured".
Proof. vm_compute. reflexivity. Qed.

(** C2: diagnose does not validate the symptom list.  For the empty list
    the only errors it can raise are the embedding failure and the missing
    API key; otherwise it returns a diagnosis like for any other input. *)
Theorem diagnose_empty_errors : forall svc chunks w m,
  fst (diagnoseDiseaseFromSymptoms svc [] chunks w) = Err m ->
  (exists e, generateEmbedding svc (diagnostic_query (symptom_list [])) = Err e /\ m = diag_failed e) \/
  m = diag_failed not_configured.
Proof.
  intros svc chunks w m H. unfold diagnoseDiseaseFromSymptoms in H. cbv zeta in H.
  destruct (generateEmbedding svc (diagnostic_query (symptom_list []))) as [e|e] eqn:He.
  - destruct (length (findSimilarChunks svc e chunks 5) =? 0)%nat; [discriminate H|].
    destruct (initializeHF w) as [[c|] w1]; simpl in H; [discriminate H|].
    injection H as <-. right. reflexivity.
  - simpl in H. injection H as <-. left. exists e. split; reflexivity.
Qed.

Lemma diagnose_empty_errors_witness :
  fst (diagnoseDiseaseFromSymptoms offline_services [] [sample_chunk] keyed_world) =
    Err (diag_failed "connect ECONNREFUSED") /\
  ((exists e, generateEmbedding offline_services (diagnostic_query (symptom_list [])) = Err e /\
      diag_failed "connect ECONNREFUSED" = diag_failed e) \/
   diag_failed "connect ECONNREFUSED" = diag_failed not_configured).
Proof.
  split; [reflexivity|].
  apply (diagnose_empty_errors offline_services [sample_chunk] keyed_world). reflexivity.
Defined.

(** C2 counterexample: the empty symptom list raises no error; with the
    chat service down it is diagnosed by the keyword fallback. *)
Lemma diagnose_empty_errors_counterexample :
  fst (diagnoseDiseaseFromSymptoms failing_services [] [sample_chunk] keyed_world) =
  Ok (parse_diagnosis (fallback_response [])).
Proof. vm_compute. reflexivity. Qed.

(** C3: for a non-empty symptom list whose query embedding succeeds,
    diagnose returns a diagnosis when retrieval finds nothing (configured
    or not) and whenever the Hugging Face client is configured; when chunks
    are retrieved and no client is configured it fails with the missing-key
    error.  When chunks were retrieved, the client is configured and every
    chat completion fails, the diagnosis is the parse of the keyword
    fallback text: its four fields are non-empty and its rawResponse is
    set. *)
Theorem diagnose_total_when_configured : forall svc symptoms allChunks w e,
  symptoms <> [] ->
  generateEmbedding svc (diagnostic_query (symptom_list symptoms)) = Ok e ->
  (findSimilarChunks svc e allChunks 5 = [] ->
   exists d, diagnoseDiseaseFromSymptoms svc symptoms allChunks w = (Ok d, w)) /\
  (forall c w1, initializeHF w = (Some c, w1) ->
   (exists d w', diagnoseDiseaseFromSymptoms svc symptoms allChunks w = (Ok d, w')) /\
   (findSimilarChunks svc e allChunks 5 <> [] ->
    (forall req, exists m, chatCompletion svc c req = Err m) ->
    exists d, diagnoseDiseaseFromSymptoms svc symptoms allChunks w = (Ok d, w1) /\
      d = parse_diagnosis (fallback_response symptoms) /\
      disease d <> "" /\ confidence d <> "" /\ explanation d <> "" /\ treatment d <> "" /\
      rawResponse d = Some (fallback_response symptoms))) /\
  (forall w1, findSimilarChunks svc e allChunks 5 <> [] -> initializeHF w = (None, w1) ->
   diagnoseDiseaseFromSymptoms svc symptoms allChunks w =
   (Err "Failed to diagnose disease: Hugging Face API key not configured", w1)).
Proof.
  intros svc symptoms allChunks w e _ He. split; [|split].
  - intros Hs. eexists. unfold diagnoseDiseaseFromSymptoms. cbv zeta. rewrite He, Hs.
    reflexivity.
  - intros c w1 Hi. split.
    + unfold diagnoseDiseaseFromSymptoms. cbv zeta. rewrite He.
      destruct (length (findSimilarChunks svc e allChunks 5) =? 0)%nat;
        [eexists; eexists; reflexivity|].
      rewrite Hi. eexists; eexists; reflexivity.
    + intros Hne Hf.
      exists (parse_diagnosis (fallback_response symptoms)).
      rewrite (diagnose_fallback svc symptoms allChunks w e c w1 He Hne Hi Hf).
      destruct (fallback_parse symptoms) as (Hd & Hc & Hx & Ht & Hr).
      split; [reflexivity|]. split; [reflexivity|].
      split; [rewrite Hd; apply line_ok_spec, classify_line_ok|].
      split; [rewrite Hc; discriminate|].
      auto.
  - intros w1 Hne Hi.
    rewrite (diag_not_configured svc symptoms allChunks w e w1 He Hne Hi). reflexivity.
Qed.

Lemma diagnose_total_when_configured_witness :
  (exists d, diagnoseDiseaseFromSymptoms failing_services ["fever"; "respiratory distress"]
               [sample_chunk] keyed_world =
             (Ok d, {| HUGGINGFACE_API_KEY := Some "hf_key";
                       hfClient := Some {| accessToken := "hf_key" |};
                       clock := 1700000000123 |}) /\
      d = parse_diagnosis (fallback_response ["fever"; "respiratory distress"]) /\
      disease d <> "" /\ confidence d <> "" /\ explanation d <> "" /\ treatment d <> "" /\
      rawResponse d = Some (fallback_response ["fever"; "respiratory distress"])) /\
  (exists d, diagnoseDiseaseFromSymptoms empty_services ["fever"] [] keyless_world =
             (Ok d, keyless_world)) /\
  diagnoseDiseaseFromSymptoms failing_services ["fever"] [sample_chunk] keyless_world =
  (Err "Failed to diagnose disease: Hugging Face API key not configured", keyless_world).
Proof.
  destruct (diagnose_total_when_configured failing_services ["fever"; "respiratory distress"]
              [sample_chunk] keyed_world [1%Q; 0%Q] ltac:(discriminate) eq_refl)
    as (_ & H1 & _).
  destruct (diagnose_total_when_configured empty_services ["fever"] [] keyless_world
              [1%Q; 0%Q] ltac:(discriminate) eq_refl) as (H2 & _).
  destruct (diagnose_total_when_configured failing_services ["fever"] [sample_chunk]
              keyless_world [1%Q; 0%Q] ltac:(discriminate) eq_refl) as (_ & _ & H3).
  split; [|split].
  - apply (H1 {| accessToken := "hf_key" |}).
    + reflexivity.
    + simpl. discriminate.
    + intros req. exists "Request failed with status code 503". reflexivity.
  - apply H2. reflexivity.
  - apply H3; [simpl; discriminate | reflexivity].
Defined.

(** C3 counterexample: with the embedding working but no API key, diagnose
    of a non-empty list returns no diagnosis; it raises an error. *)
Lemma diagnose_total_when_configured_counterexample :
  fst (diagnoseDiseaseFromSymptoms failing_services ["fever"] [sample_chunk] keyless_world) =
  Err "Failed to diagnose disease: Hugging Face API key not configured".
Proof. vm_compute. reflexivity. Qed.

(** C6: with generation forced to fail (retrieval non-empty, client
    configured, every chat completion rejected) the diagnosis comes from the
    ordered keyword table, tested case-insensitively on each symptom: a
    symptom mentioning fever together with one mentioning respiratory
    distress gives a disease containing "Respiratory" with confidence
    exactly "Medium"; when that rule does not fire, a symptom mentioning
    diarrhea gives the gastrointestinal / parasitic disease. *)
Theorem fallback_rule_table : forall svc symptoms allChunks w e c w1,
  generateEmbedding svc (diagnostic_query (symptom_list symptoms)) = Ok e ->
  findSimilarChunks svc e allChunks 5 <> [] ->
  initializeHF w = (Some c, w1) ->
  (forall req, exists m, chatCompletion svc c req = Err m) ->
  exists d, diagnoseDiseaseFromSymptoms svc symptoms allChunks w = (Ok d, w1) /\
    disease d = fst (classify symptoms) /\ confidence d = "Medium" /\
    ((exists s, In s symptoms /\ includes (toLowerCase s) "fever" = true) ->
     (exists s, In s symptoms /\ includes (toLowerCase s) "respiratory distress" = true) ->
     includes (disease d) "Respiratory" = true /\ confidence d = "Medium") /\
    (mentions symptoms "fever" && mentions symptoms "respiratory" = false ->
     (exists s, In s symptoms /\ includes (toLowerCase s) "diarrhea" = true) ->
     disease d = "Gastrointestinal Infection or Parasitic Condition").
Proof.
  intros svc symptoms allChunks w e c w1 He Hne Hi Hf.
  exists (parse_diagnosis (fallback_response symptoms)).
  rewrite (diagnose_fallback svc symptoms allChunks w e c w1 He Hne Hi Hf).
  destruct (fallback_parse symptoms) as (Hd & Hc & _).
  split; [reflexivity|]. split; [exact Hd|]. split; [exact Hc|]. split.
  - intros Hfe [s [Hin Hs]]. split; [|exact Hc].
    assert (Hr : mentions symptoms "respiratory" = true).
    { apply mentions_spec. exists s. split; [exact Hin|].
      apply (includes_app_l _ "respiratory" " distress"), Hs. }
    apply mentions_spec in Hfe. rewrite Hd. unfold classify. rewrite Hfe, Hr. reflexivity.
  - intros Hn Hdi. apply mentions_spec in Hdi.
    rewrite Hd. unfold classify. rewrite Hn, Hdi. reflexivity.
Qed.

Lemma fallback_rule_table_witness :
  exists d, fst (diagnoseDiseaseFromSymptoms failing_services ["Fever"; "Respiratory distress"]
                   [sample_chunk] keyed_world) = Ok d /\
    includes (disease d) "Respiratory" = true /\ confidence d = "Medium".
Proof.
  assert (Hne : findSimilarChunks failing_services [1%Q; 0%Q] [sample_chunk] 5 <> [])
    by (simpl; discriminate).
  assert (Hf : forall req, exists m,
            chatCompletion failing_services {| accessToken := "hf_key" |} req = Err m)
    by (intros req; exists "Request failed with status code 503"; reflexivity).
  destruct (fallback_rule_table failing_services ["Fever"; "Respiratory distress"]
              [sample_chunk] keyed_world [1%Q; 0%Q] {| accessToken := "hf_key" |}
              {| HUGGINGFACE_API_KEY := Some "hf_key"; hfClient := Some {| accessToken := "hf_key" |};
                 clock := 1700000000123 |} eq_refl Hne eq_refl Hf)
    as (d & Heq & _ & _ & Hresp & _).
  exists d. rewrite Heq. split; [reflexivity|].
  apply Hresp.
  - exists "Fever". split; [left; reflexivity | reflexivity].
  - exists "Respiratory distress". split; [right; left; reflexivity | reflexivity].
Defined.




(** C8: a field whose label does not occur in the text gets its default
    (Unable to diagnose, Low, the whole text, Consult veterinarian), the raw
    text is kept verbatim, and a text with DISEASE, CONFIDENCE and
    EXPLANATION lines but no TREATMENT line has those three parsed and the
    default treatment. *)
Theorem parse_defaults : forall response,
  (occurs_ci "DISEASE:" response = false ->
   disease (parse_diagnosis response) = "Unable to diagnose") /\
  (occurs_ci "CONFIDENCE:" response = false ->
   confidence (parse_diagnosis response) = "Low") /\
  (occurs_ci "EXPLANATION:" response = false ->
   explanation (parse_diagnosis response) = response) /\
  (occurs_ci "TREATMENT:" response = false ->
   treatment (parse_diagnosis response) = "Consult veterinarian") /\
  rawResponse (parse_diagnosis response) = Some response /\
  (forall d c e, line_ok d = true -> line_ok c = true -> line_ok e = true ->
   occurs_ci "TREATMENT" e = false ->
   response = "DISEASE: " ++ d ++ nl ++ "CONFIDENCE: " ++ c ++ nl ++ "EXPLANATION: " ++ e ->
   parse_diagnosis response =
   {| disease := d; confidence := c; explanation := e; treatment := "Consult veterinarian";
      rawResponse := Some response |}).
Proof.
  intros response. unfold parse_diagnosis, field; cbn [disease confidence explanation treatment rawResponse].
  repeat split; try (intros H; rewrite search_absent by exact H; reflexivity).
  intros d c e Hd Hc He Ho ->.
  rewrite disease_line by exact Hd.
  rewrite confidence_line by assumption.
  rewrite <- (app_nil_r_str e) at 1.
  rewrite explanation_line by (assumption || apply nl_or_end_empty).
  rewrite treatment_absent by assumption.
  apply line_ok_spec in Hd as (_ & Htd & _).
  apply line_ok_spec in Hc as (_ & Htc & _).
  apply line_ok_spec in He as (_ & Hte & _).
  rewrite Htd, Htc, Hte. reflexivity.
Qed.

Lemma parse_defaults_witness :
  parse_diagnosis ("DISEASE: " ++ "Bloat" ++ nl ++ "CONFIDENCE: " ++ "High" ++ nl ++
                   "EXPLANATION: " ++ "Gas builds up in the rumen") =
  {| disease := "Bloat"; confidence := "High"; explanation := "Gas builds up in the rumen";
     treatment := "Consult veterinarian";
     rawResponse := Some ("DISEASE: " ++ "Bloat" ++ nl ++ "CONFIDENCE: " ++ "High" ++ nl ++
                          "EXPLANATION: " ++ "Gas builds up in the rumen") |} /\
  explanation (parse_diagnosis "The animal looks healthy") = "The animal looks healthy".
Proof.
  split.
  - destruct (parse_defaults ("DISEASE: " ++ "Bloat" ++ nl ++ "CONFIDENCE: " ++ "High" ++ nl ++
                              "EXPLANATION: " ++ "Gas builds up in the rumen"))
      as (_ & _ & _ & _ & _ & H).
    apply H; reflexivity.
  - destruct (parse_defaults "The animal looks healthy") as (_ & _ & H & _).
    apply H. reflexivity.
Defined.

(** C9: two calls of generateRAGAnswer with the same services and inputs,
    the second made in the world the first left behind at any later time,
    return the same result.  Two calls of diagnose do so when the two clock
    readings agree modulo 1000, since [Date.now() % 1000] is written into
    the system message. *)
Theorem repeated_calls_agree : forall svc question allChunks topK symptoms chunks w t,
  fst (generateRAGAnswer svc question allChunks topK
         (at_time (snd (generateRAGAnswer svc question allChunks topK w)) t)) =
  fst (generateRAGAnswer svc question allChunks topK w) /\
  (Z.rem t 1000 = Z.rem (clock w) 1000 ->
   fst (diagnoseDiseaseFromSymptoms svc symptoms chunks
          (at_time (snd (diagnoseDiseaseFromSymptoms svc symptoms chunks w)) t)) =
   fst (diagnoseDiseaseFromSymptoms svc symptoms chunks w)).
Proof.
  intros svc question allChunks topK symptoms chunks w t. split.
  - unfold generateRAGAnswer. cbv zeta.
    destruct (generateEmbedding svc question) as [e|m]; [|reflexivity].
    destruct (length (findSimilarChunks svc e allChunks topK) =? 0)%nat; [reflexivity|].
    destruct (initializeHF w) as [[c|] w1] eqn:Hi.
    + rewrite !rag_generate_context. cbn iota beta.
      destruct (0 <? length (findSimilarChunks svc e allChunks topK))%nat;
        cbn iota beta; cbn [snd];
        rewrite (initializeHF_at_time w (Some c) w1 t Hi); reflexivity.
    + cbn iota beta. cbn [snd].
      rewrite (initializeHF_at_time w None w1 t Hi). reflexivity.
  - intros Ht. unfold diagnoseDiseaseFromSymptoms. cbv zeta.
    destruct (generateEmbedding svc (diagnostic_query (symptom_list symptoms))) as [e|m];
      [|reflexivity].
    destruct (length (findSimilarChunks svc e chunks 5) =? 0)%nat; [reflexivity|].
    destruct (initializeHF w) as [[c|] w1] eqn:Hi.
    + cbn iota beta. cbn [snd].
      rewrite (initializeHF_at_time w (Some c) w1 t Hi). cbn iota beta.
      replace (Z.rem (clock (at_time w1 t)) 1000) with (Z.rem (clock w1) 1000);
        [reflexivity|].
      simpl. rewrite (initializeHF_clock w _ w1 Hi). symmetry. exact Ht.
    + cbn iota beta. cbn [snd].
      rewrite (initializeHF_at_time w None w1 t Hi). reflexivity.
Qed.

Lemma repeated_calls_agree_witness :
  fst (diagnoseDiseaseFromSymptoms echo_services ["fever"] [sample_chunk]
         (at_time (snd (diagnoseDiseaseFromSymptoms echo_services ["fever"] [sample_chunk]
                          keyed_world)) 1700000005123)) =
  fst (diagnoseDiseaseFromSymptoms echo_services ["fever"] [sample_chunk] keyed_world).
Proof.
  destruct (repeated_calls_agree echo_services "Why is my cow coughing?" [sample_chunk] 3
              ["fever"] [sample_chunk] keyed_world 1700000005123) as [_ H].
  apply H. reflexivity.
Defined.

(** C9 counterexample: a deterministic chat service that echoes its system
    message, called twice with the same symptoms one millisecond apart,
    yields two different diagnoses (Analysis ID 123, then 124). *)
Lemma repeated_calls_agree_counterexample :
  fst (diagnoseDiseaseFromSymptoms echo_services ["fever"] [sample_chunk]
         (at_time (snd (diagnoseDiseaseFromSymptoms echo_services ["fever"] [sample_chunk]
                          keyed_world)) 1700000000124)) <>
  fst (diagnoseDiseaseFromSymptoms echo_services ["fever"] [sample_chunk] keyed_world).
Proof. vm_compute. intros H. discriminate H. Qed.

(** * Further properties of the service *)

(** ** Helper lemmas *)

Lemma initializeHF_idem : forall w cl w1,
  initializeHF w = (cl, w1) -> initializeHF w1 = (cl, w1).
Proof.
  intros w cl w1 H. unfold initializeHF in *.
  destruct (hfClient w) as [c|] eqn:Hc; [injection H as <- <-; rewrite Hc; reflexivity|].
  destruct (HUGGINGFACE_API_KEY w) as [k|] eqn:Hk.
  - destruct (k =? "") eqn:Ek.
    + injection H as <- <-. rewrite Hc, Hk, Ek. reflexivity.
    + injection H as <- <-. reflexivity.
  - injection H as <- <-. rewrite Hc, Hk. reflexivity.
Qed.

Lemma rag_after_init : forall svc question allChunks topK w e cl w1,
  generateEmbedding svc question = Ok e ->
  findSimilarChunks svc e allChunks topK <> [] ->
  initializeHF w = (cl, w1) ->
  generateRAGAnswer svc question allChunks topK w1 =
  generateRAGAnswer svc question allChunks topK w.
Proof.
  intros svc question allChunks topK w e cl w1 He Hne Hi.
  unfold generateRAGAnswer. rewrite He. cbv zeta.
  destruct (findSimilarChunks svc e allChunks topK) as [|s0 ss]; [contradiction|].
  simpl length. cbn iota beta.
  rewrite (initializeHF_idem w cl w1 Hi), Hi. reflexivity.
Qed.

Lemma stream_nonempty : forall svc question allChunks topK w e,
  generateEmbedding svc question = Ok e ->
  findSimilarChunks svc e allChunks topK <> [] ->
  streamRAGAnswer svc question allChunks topK w =
  ([match fst (generateRAGAnswer svc question allChunks topK w) with
    | Ok r => answer r
    | Err m => "Error: " ++ m
    end], snd (generateRAGAnswer svc question allChunks topK w)).
Proof.
  intros svc question allChunks topK w e He Hne.
  unfold streamRAGAnswer. rewrite He. cbv zeta.
  destruct (length (findSimilarChunks svc e allChunks topK) =? 0)%nat eqn:L.
  - apply Nat.eqb_eq, length_zero_iff_nil in L. contradiction.
  - destruct (initializeHF w) as [cl w1] eqn:Hi.
    rewrite (rag_after_init svc question allChunks topK w e cl w1 He Hne Hi).
    destruct (generateRAGAnswer svc question allChunks topK w) as [[r|m] w2]; reflexivity.
Qed.

(** ** initializeHF *)

(** [initializeHF] keeps one client per process: a second call returns the
    same client and changes nothing; no client is created when the key is
    unset or empty, and a new client carries the key as its token. *)
Theorem initializeHF_singleton : forall w cl w1,
  initializeHF w = (cl, w1) ->
  initializeHF w1 = (cl, w1) /\
  (cl = None <-> hfClient w = None /\
                 (HUGGINGFACE_API_KEY w = None \/ HUGGINGFACE_API_KEY w = Some "")) /\
  (cl = None -> w1 = w) /\
  (forall c, cl = Some c ->
     hfClient w1 = Some c /\ HUGGINGFACE_API_KEY w1 = HUGGINGFACE_API_KEY w /\
     clock w1 = clock w /\
     (hfClient w = None -> HUGGINGFACE_API_KEY w = Some (accessToken c))).
Proof.
  intros w cl w1 H. split; [exact (initializeHF_idem w cl w1 H)|].
  unfold initializeHF in H.
  destruct (hfClient w) as [c0|] eqn:Hc.
  - injection H as <- <-. split; [split; [discriminate | intros [Hn _]; discriminate Hn]|].
    split; [discriminate|]. intros c E. injection E as <-.
    split; [exact Hc|]. split; [reflexivity|]. split; [reflexivity|]. discriminate.
  - destruct (HUGGINGFACE_API_KEY w) as [k|] eqn:Hk.
    + destruct (k =? "") eqn:Ek.
      * apply String.eqb_eq in Ek. subst k. injection H as <- <-.
        split; [tauto|]. split; [reflexivity|]. intros c E; discriminate E.
      * apply String.eqb_neq in Ek. injection H as <- <-.
        split; [split; [discriminate | intros [_ [Hn|Hn]]; [discriminate Hn | injection Hn as Hn; contradiction]]|].
        split; [discriminate|]. intros c E. injection E as <-.
        split; [reflexivity|]. split; [reflexivity|]. split; [reflexivity|]. reflexivity.
    + injection H as <- <-. split; [tauto|]. split; [reflexivity|]. intros c E; discriminate E.
Qed.

Lemma initializeHF_singleton_witness :
  initializeHF keyed_world =
    (Some {| accessToken := "hf_key" |},
     {| HUGGINGFACE_API_KEY := Some "hf_key"; hfClient := Some {| accessToken := "hf_key" |};
        clock := 1700000000123 |}) /\
  initializeHF {| HUGGINGFACE_API_KEY := Some "hf_key"; hfClient := Some {| accessToken := "hf_key" |};
                  clock := 1700000000123 |} =
    (Some {| accessToken := "hf_key" |},
     {| HUGGINGFACE_API_KEY := Some "hf_key"; hfClient := Some {| accessToken := "hf_key" |};
        clock := 1700000000123 |}).
Proof.
  assert (H : initializeHF keyed_world =
    (Some {| accessToken := "hf_key" |},
     {| HUGGINGFACE_API_KEY := Some "hf_key"; hfClient := Some {| accessToken := "hf_key" |};
        clock := 1700000000123 |})) by reflexivity.
  split; [exact H|].
  destruct (initializeHF_singleton _ _ _ H) as [H1 _]. exact H1.
Defined.

(** ** streamRAGAnswer *)

(** The stream never throws and yields exactly one string: the embedding
    failure as [Error: <cause>] (without the prefix generateRAGAnswer adds),
    a shorter no-information message for an empty retrieval, and otherwise
    exactly what generateRAGAnswer gives for the same input, its answer or
    [Error: <its message>], leaving the world as that call does. *)
Theorem stream_outcomes : forall svc question allChunks topK w,
  (forall m, generateEmbedding svc question = Err m ->
     streamRAGAnswer svc question allChunks topK w = (["Error: " ++ m], w)) /\
  (forall e, generateEmbedding svc question = Ok e ->
     findSimilarChunks svc e allChunks topK = [] ->
     streamRAGAnswer svc question allChunks topK w =
     (["I don't have enough information to answer this question."], w)) /\
  (forall e, generateEmbedding svc question = Ok e ->
     findSimilarChunks svc e allChunks topK <> [] ->
     streamRAGAnswer svc question allChunks topK w =
     ([match fst (generateRAGAnswer svc question allChunks topK w) with
       | Ok r => answer r
       | Err m => "Error: " ++ m
       end], snd (generateRAGAnswer svc question allChunks topK w))).
Proof.
  intros svc question allChunks topK w. split; [|split].
  - intros m H. unfold streamRAGAnswer. rewrite H. reflexivity.
  - intros e H Hs. unfold streamRAGAnswer. rewrite H. cbv zeta. rewrite Hs. reflexivity.
  - intros e H Hne. apply (stream_nonempty svc question allChunks topK w e H Hne).
Qed.

Lemma stream_outcomes_witness :
  streamRAGAnswer offline_services "Why is my cow coughing?" [sample_chunk] 3 keyed_world =
    (["Error: " ++ "connect ECONNREFUSED"], keyed_world) /\
  streamRAGAnswer empty_services "Why is my cow coughing?" [] 3 keyed_world =
    (["I don't have enough information to answer this question."], keyed_world).
Proof.
  destruct (stream_outcomes offline_services "Why is my cow coughing?" [sample_chunk] 3 keyed_world)
    as [H1 _].
  destruct (stream_outcomes empty_services "Why is my cow coughing?" [] 3 keyed_world)
    as [_ [H2 _]].
  split; [apply H1; reflexivity | apply (H2 [1%Q; 0%Q]); reflexivity].
Defined.

(** With chunks retrieved, the stream yields the degraded answer when a
    client is configured, and the missing-key error as text otherwise. *)
Theorem stream_yield_retrieved : forall svc question allChunks topK w e,
  generateEmbedding svc question = Ok e ->
  findSimilarChunks svc e allChunks topK <> [] ->
  (forall c w1, initializeHF w = (Some c, w1) ->
     streamRAGAnswer svc question allChunks topK w =
     ([rag_fallback_answer question
         (map (fun s => text (chunk s)) (findSimilarChunks svc e allChunks topK))], w1)) /\
  (forall w1, initializeHF w = (None, w1) ->
     streamRAGAnswer svc question allChunks topK w =
     (["Error: Failed to generate answer: Hugging Face API key not configured"], w1)).
Proof.
  intros svc question allChunks topK w e He Hne.
  rewrite (stream_nonempty svc question allChunks topK w e He Hne). split.
  - intros c w1 Hi.
    rewrite (rag_configured svc question allChunks topK w e _ c w1 He eq_refl Hne Hi).
    reflexivity.
  - intros w1 Hi.
    assert (Hn : generateRAGAnswer svc question allChunks topK w =
                 (Err (rag_failed not_configured), w1)).
    { unfold generateRAGAnswer. rewrite He. cbv zeta.
      destruct (findSimilarChunks svc e allChunks topK) as [|s0 ss]; [contradiction|].
      simpl length. cbn iota beta. rewrite Hi. reflexivity. }
    rewrite Hn. reflexivity.
Qed.

Lemma stream_yield_retrieved_witness :
  fst (streamRAGAnswer failing_services "Why is my cow coughing?" [sample_chunk] 3 keyless_world) =
  ["Error: Failed to generate answer: Hugging Face API key not configured"].
Proof.
  assert (Hne : findSimilarChunks failing_services [1%Q; 0%Q] [sample_chunk] 3 <> [])
    by (simpl; discriminate).
  destruct (stream_yield_retrieved failing_services "Why is my cow coughing?" [sample_chunk] 3
              keyless_world [1%Q; 0%Q] eq_refl Hne) as [_ H2].
  rewrite (H2 keyless_world); reflexivity.
Defined.

(** ** Helper lemmas on substrings *)

Lemma includes_unfold : forall s pat,
  includes s pat = prefix pat s || match s with EmptyString => false | String _ s' => includes s' pat end.
Proof. intros [|c s] pat; reflexivity. Qed.

Lemma prefix_self_app : forall p s, prefix p (p ++ s) = true.
Proof.
  induction p as [|a p IH]; intros s; [destruct s; reflexivity|].
  simpl. destruct (ascii_dec a a) as [_|n]; [apply IH | contradiction].
Qed.

Lemma includes_prefix : forall p s, includes (p ++ s) p = true.
Proof. intros p s. rewrite includes_unfold, prefix_self_app. reflexivity. Qed.

Lemma includes_app_r : forall a s p, includes s p = true -> includes (a ++ s) p = true.
Proof.
  induction a as [|c a IH]; intros s p H; [exact H|].
  simpl. rewrite (IH s p H). apply orb_true_r.
Qed.

Lemma prefix_app_r : forall p s b, prefix p s = true -> prefix p (s ++ b) = true.
Proof.
  induction p as [|x p IH]; intros s b H; [destruct (s ++ b); reflexivity|].
  destruct s as [|y s]; [discriminate|]. simpl in *.
  destruct (ascii_dec x y); [apply IH, H | discriminate].
Qed.

Lemma includes_app_l' : forall a b p, includes a p = true -> includes (a ++ b) p = true.
Proof.
  induction a as [|c a IH]; intros b p H.
  - destruct p as [|x p]; [rewrite includes_unfold; destruct b; reflexivity | discriminate].
  - change (prefix p (String c a) || includes a p = true) in H.
    change (prefix p (String c a ++ b) || includes (a ++ b) p = true).
    apply orb_true_iff in H as [H|H].
    + rewrite (prefix_app_r p _ b H). reflexivity.
    + rewrite (IH b p H). apply orb_true_r.
Qed.

Lemma includes_concat : forall sep l x, In x l -> includes (String.concat sep l) x = true.
Proof.
  intros sep l x. induction l as [|y l IH]; intros H; [destruct H|].
  destruct H as [->|H].
  - destruct l as [|z l].
    + rewrite <- (app_nil_r_str x) at 1. apply includes_prefix.
    + apply includes_prefix.
  - destruct l as [|z l]; [destruct H|].
    change (includes (y ++ sep ++ String.concat sep (z :: l)) x = true).
    apply includes_app_r, includes_app_r, IH, H.
Qed.

Lemma mapi_from_nth : forall {A B : Type} (f : nat -> A -> B) l k i t,
  nth_error l i = Some t -> In (f (k + i) t) (mapi_from k f l).
Proof.
  intros A B f l. induction l as [|x l IH]; intros k i t H; [destruct i; discriminate|].
  destruct i as [|i]; simpl in H.
  - injection H as <-. left. rewrite Nat.add_0_r. reflexivity.
  - right. replace (k + S i) with (S k + i) by lia. apply IH, H.
Qed.

Lemma length_append_str : forall a b, String.length (a ++ b) = String.length a + String.length b.
Proof. induction a as [|c a IH]; intros b; simpl; [reflexivity | rewrite IH; reflexivity]. Qed.

Lemma length_substring_0 : forall n s, String.length (substring 0 n s) <= n.
Proof.
  induction n as [|n IH]; intros [|c s]; simpl; try lia.
  specialize (IH s). lia.
Qed.

Lemma sources_spec : forall l,
  Forall2 (fun s src =>
             source_text src = substring 0 200 (text (chunk s)) ++ "..." /\
             String.length (source_text src) <= 203 /\
             source_similarity src = similarity s /\ chunkId src = chunk_id (chunk s))
          l (map to_source l).
Proof.
  induction l as [|s l IH]; constructor; [|exact IH].
  unfold to_source; cbn [source_text source_similarity chunkId].
  split; [reflexivity|]. split; [|split; reflexivity].
  rewrite length_append_str. pose proof (length_substring_0 200 (text (chunk s))). simpl. lia.
Qed.

(** Every successful result of generateRAGAnswer is one of the two built by
    the code: the no-information answer for an empty retrieval, or the
    degraded answer over the retrieved chunks. *)
Lemma rag_ok_cases : forall svc question allChunks topK w r w',
  generateRAGAnswer svc question allChunks topK w = (Ok r, w') ->
  exists e, generateEmbedding svc question = Ok e /\
    let similar := findSimilarChunks svc e allChunks topK in
    ((similar = [] /\ r = {| answer := no_info_answer; sources := [] |}) \/
     (similar <> [] /\
      r = {| answer := rag_fallback_answer question (map (fun s => text (chunk s)) similar);
             sources := map to_source similar |})).
Proof.
  intros svc question allChunks topK w r w' H.
  unfold generateRAGAnswer in H.
  destruct (generateEmbedding svc question) as [e|m]; [|discriminate H].
  exists e. split; [reflexivity|]. cbv zeta in *.
  destruct (findSimilarChunks svc e allChunks topK) as [|s0 ss] eqn:Hs.
  - simpl in H. injection H as <- _. left. split; reflexivity.
  - right. split; [discriminate|]. simpl length in H. cbn iota beta in H.
    destruct (initializeHF w) as [[c|] w1]; [|discriminate H].
    rewrite rag_generate_context in H. simpl in H. injection H as <- _. reflexivity.
Qed.

Lemma includes_prefix2 : forall a b d, includes (a ++ b ++ d) (a ++ b) = true.
Proof. intros a b d. rewrite <- app_assoc_str. apply includes_prefix. Qed.

Lemma includes_prefix3 : forall a b c d, includes (a ++ b ++ c ++ d) (a ++ b ++ c) = true.
Proof.
  intros a b c d. rewrite <- (app_assoc_str b c d), <- (app_assoc_str a (b ++ c) d).
  apply includes_prefix.
Qed.

(** ** generateRAGAnswer: sources and answer text *)

(** Every successful result lists one source per retrieved chunk, in
    retrieval order: the first 200 characters of its text followed by
    "..." (so at most 203 characters), its similarity and its chunk id. *)
Theorem rag_sources_spec : forall svc question allChunks topK w r w',
  generateRAGAnswer svc question allChunks topK w = (Ok r, w') ->
  exists e, generateEmbedding svc question = Ok e /\
  Forall2 (fun s src =>
             source_text src = substring 0 200 (text (chunk s)) ++ "..." /\
             String.length (source_text src) <= 203 /\
             source_similarity src = similarity s /\ chunkId src = chunk_id (chunk s))
          (findSimilarChunks svc e allChunks topK) (sources r).
Proof.
  intros svc question allChunks topK w r w' H.
  destruct (rag_ok_cases svc question allChunks topK w r w' H) as (e & He & Hc).
  exists e. split; [exact He|]. cbv zeta in Hc.
  destruct Hc as [[Hs ->] | [_ ->]].
  - rewrite Hs. constructor.
  - apply sources_spec.
Qed.

Lemma rag_sources_spec_witness :
  exists e, generateEmbedding failing_services "Why is my cow coughing?" = Ok e /\
  Forall2 (fun s src =>
             source_text src = substring 0 200 (text (chunk s)) ++ "..." /\
             String.length (source_text src) <= 203 /\
             source_similarity src = similarity s /\ chunkId src = chunk_id (chunk s))
          (findSimilarChunks failing_services e [sample_chunk] 3)
          (sources {| answer := rag_fallback_answer "Why is my cow coughing?" [text sample_chunk];
                      sources := map to_source [ {| chunk := sample_chunk; similarity := 1%Q |} ] |}).
Proof.
  apply (rag_sources_spec failing_services "Why is my cow coughing?" [sample_chunk] 3 keyed_world
           _ {| HUGGINGFACE_API_KEY := Some "hf_key"; hfClient := Some {| accessToken := "hf_key" |};
                clock := 1700000000123 |}).
  reflexivity.
Defined.

(** A successful answer over retrieved chunks quotes the question between
    double quotes and contains, for the i-th retrieved chunk, the line
    "<i+1>. " followed by the first 200 characters of its text and "...";
    with no chunk retrieved it is the fixed no-information answer. *)
Theorem rag_answer_contents : forall svc question allChunks topK w r w',
  generateRAGAnswer svc question allChunks topK w = (Ok r, w') ->
  exists e, generateEmbedding svc question = Ok e /\
  (findSimilarChunks svc e allChunks topK = [] -> answer r = no_info_answer) /\
  (findSimilarChunks svc e allChunks topK <> [] ->
   includes (answer r) (dq ++ question ++ dq) = true /\
   forall i s, nth_error (findSimilarChunks svc e allChunks topK) i = Some s ->
     includes (answer r) (nat_str (i + 1) ++ ". " ++ substring 0 200 (text (chunk s)) ++ "...")
     = true).
Proof.
  intros svc question allChunks topK w r w' H.
  destruct (rag_ok_cases svc question allChunks topK w r w' H) as (e & He & Hc).
  exists e. split; [exact He|]. cbv zeta in Hc.
  destruct Hc as [[Hs ->] | [Hne ->]].
  - split; [reflexivity | intros Hn; contradiction].
  - split; [intros Hs; contradiction|]. intros _. cbn [answer]. unfold rag_fallback_answer.
    split.
    + do 7 apply includes_app_r. apply includes_prefix3.
    + intros i s Hi. do 3 apply includes_app_r. apply includes_app_l'.
      apply includes_concat. unfold mapi.
      apply (mapi_from_nth (fun i t => nat_str (i + 1) ++ ". " ++ substring 0 200 t ++ "...")
               _ 0 i (text (chunk s))).
      rewrite nth_error_map, Hi. reflexivity.
Qed.

Lemma rag_answer_contents_witness :
  includes (rag_fallback_answer "Why is my cow coughing?" [text sample_chunk])
    (nat_str (0 + 1) ++ ". " ++ substring 0 200 (text sample_chunk) ++ "...") = true.
Proof.
  destruct (rag_answer_contents failing_services "Why is my cow coughing?" [sample_chunk] 3
              keyed_world
              {| answer := rag_fallback_answer "Why is my cow coughing?" [text sample_chunk];
                 sources := map to_source [ {| chunk := sample_chunk; similarity := 1%Q |} ] |}
              {| HUGGINGFACE_API_KEY := Some "hf_key"; hfClient := Some {| accessToken := "hf_key" |};
                 clock := 1700000000123 |} eq_refl) as (e & He & _ & H).
  injection He as <-.
  destruct H as [_ H]; [simpl; discriminate|].
  apply (H 0 {| chunk := sample_chunk; similarity := 1%Q |}). reflexivity.
Defined.

(** ** buildRAGPrompt *)

(** The prompt contains the question after "User Question: " and, for the
    i-th chunk, the header "[Context <i+1>]" followed by a line break and
    the chunk's text. *)
Theorem rag_prompt_contents : forall question relevantChunks,
  includes (buildRAGPrompt question relevantChunks) ("User Question: " ++ question) = true /\
  forall i t, nth_error relevantChunks i = Some t ->
    includes (buildRAGPrompt question relevantChunks)
             ("[Context " ++ nat_str (i + 1) ++ "]" ++ nl ++ t) = true.
Proof.
  intros question relevantChunks. unfold buildRAGPrompt. cbv zeta. split.
  - do 8 apply includes_app_r. apply includes_prefix2.
  - intros i t Hi. do 5 apply includes_app_r. apply includes_app_l'.
    apply includes_concat. unfold mapi.
    apply (mapi_from_nth (fun idx t => "[Context " ++ nat_str (idx + 1) ++ "]" ++ nl ++ t)
             _ 0 i t Hi).
Qed.

Lemma rag_prompt_contents_witness :
  includes (buildRAGPrompt "Why is my cow coughing?" ["Cough"; "Pneumonia signs"])
           ("[Context " ++ nat_str (1 + 1) ++ "]" ++ nl ++ "Pneumonia signs") = true.
Proof.
  destruct (rag_prompt_contents "Why is my cow coughing?" ["Cough"; "Pneumonia signs"]) as [_ H].
  apply H. reflexivity.
Defined.

(** ** Helper lemmas on the parser *)

Lemma str_forall_app : forall p a b,
  str_forall p (a ++ b) = str_forall p a && str_forall p b.
Proof.
  intros p a b. induction a as [|c a IH]; [reflexivity|].
  simpl. rewrite IH. apply andb_assoc.
Qed.

Lemma lazy_rest_dot : forall r u x, lazy_rest r u = Some x -> str_forall (dot_matches r) x = true.
Proof.
  intros r u. induction u as [|c u IH]; intros x H; rewrite lazy_rest_unfold in H.
  - destruct (stops_at r ""); [injection H as <-; reflexivity | discriminate].
  - destruct (stops_at r (String c u)); [injection H as <-; reflexivity|].
    destruct (dot_matches r c) eqn:D; [|discriminate].
    destruct (lazy_rest r u) as [y|] eqn:E; [|discriminate].
    injection H as <-. simpl. rewrite D. apply IH. reflexivity.
Qed.

Lemma lazy_plus_dot : forall r u x, lazy_plus r u = Some x -> str_forall (dot_matches r) x = true.
Proof.
  intros r [|c u] x H; [discriminate|]. unfold lazy_plus in H.
  destruct (dot_matches r c) eqn:D; [|discriminate].
  destruct (lazy_rest r u) as [y|] eqn:E; [|discriminate].
  injection H as <-. simpl. rewrite D. exact (lazy_rest_dot r u y E).
Qed.

Lemma ws_star_dot : forall r t x, ws_star r t = Some x -> str_forall (dot_matches r) x = true.
Proof.
  intros r t. induction t as [|c t IH]; intros x H.
  - apply (lazy_plus_dot r "" x H).
  - simpl in H. destruct (is_space c); [|exact (lazy_plus_dot r (String c t) x H)].
    destruct (ws_star r t) as [y|] eqn:E.
    + injection H as <-. apply IH. reflexivity.
    + exact (lazy_plus_dot r (String c t) x H).
Qed.

Lemma search_dot : forall r s x, search r s = Some x -> str_forall (dot_matches r) x = true.
Proof.
  intros r s. induction s as [|c s IH]; intros x H; rewrite search_unfold in H; unfold match_at in H.
  - destruct (strip_prefix_ci (label r) "") as [u|]; [|discriminate].
    destruct (ws_star r u) as [y|] eqn:E; [|discriminate].
    injection H as <-. exact (ws_star_dot r u y E).
  - destruct (strip_prefix_ci (label r) (String c s)) as [u|].
    + destruct (ws_star r u) as [y|] eqn:E.
      * injection H as <-. exact (ws_star_dot r u y E).
      * apply IH, H.
    + apply IH, H.
Qed.

Lemma str_forall_trim : forall p s, str_forall p s = true -> str_forall p (trim s) = true.
Proof.
  intros p s H. unfold trim.
  assert (Hl : str_forall p (ltrim s) = true).
  { induction s as [|c s IH]; [reflexivity|]. simpl in H |- *.
    apply andb_prop in H as [Hc Hs]. destruct (is_space c); [apply IH, Hs|]. simpl. rewrite Hc. exact Hs. }
  clear H. induction (ltrim s) as [|c u IH]; [reflexivity|].
  simpl in Hl |- *. apply andb_prop in Hl as [Hc Hu].
  destruct ((rtrim u =? "") && is_space c); [reflexivity|].
  simpl. rewrite Hc. apply IH, Hu.
Qed.

Lemma strip_prefix_ci_split : forall p s t, strip_prefix_ci p s = Some t ->
  exists q, s = q ++ t /\ strip_prefix_ci p q = Some "".
Proof.
  induction p as [|a p IH]; intros s t H.
  - simpl in H. injection H as <-. exists "". split; reflexivity.
  - destruct s as [|b s]; simpl in H; [discriminate|].
    destruct (ci_eq a b) eqn:C; [|discriminate].
    destruct (IH s t H) as [q [-> Hq]]. exists (String b q). split; [reflexivity|].
    simpl. rewrite C. exact Hq.
Qed.

Lemma ws_star_treatment_space : forall t x, ws_star treatment_re t = Some x ->
  x <> "" /\ exists b, t = b ++ x /\ all_space b = true.
Proof.
  induction t as [|c t IH]; intros x H; [discriminate|].
  assert (Hl : lazy_plus treatment_re (String c t) = Some x ->
               x <> "" /\ exists b, String c t = b ++ x /\ all_space b = true).
  { unfold lazy_plus. simpl. rewrite lazy_rest_treatment. intros E. injection E as <-.
    split; [discriminate | exists ""; split; reflexivity]. }
  simpl in H. destruct (is_space c) eqn:Sc; [|apply Hl, H].
  destruct (ws_star treatment_re t) as [y|] eqn:E; [|apply Hl, H].
  injection H as <-. destruct (IH y eq_refl) as [Hne [b [-> Hb]]].
  split; [exact Hne|]. exists (String c b). split; [reflexivity|].
  unfold all_space in *. simpl. rewrite Sc. exact Hb.
Qed.

Lemma search_treatment_label : forall s x, search treatment_re s = Some x ->
  x <> "" /\ exists a L b, s = a ++ L ++ b ++ x /\
    strip_prefix_ci "TREATMENT:" L = Some "" /\ all_space b = true.
Proof.
  induction s as [|c s IH]; intros x H.
  - discriminate.
  - rewrite search_unfold in H. unfold match_at in H.
    destruct (strip_prefix_ci (label treatment_re) (String c s)) as [t|] eqn:E.
    + destruct (ws_star treatment_re t) as [y|] eqn:W.
      * injection H as <-. destruct (ws_star_treatment_space t y W) as [Hne [b [Ht Hb]]].
        destruct (strip_prefix_ci_split _ _ _ E) as [q [Hq HL]].
        split; [exact Hne|]. exists "", q, b. split; [|split; assumption].
        rewrite Hq, Ht. reflexivity.
      * destruct (IH x H) as [Hne [a [L [b [Hs HL]]]]].
        split; [exact Hne|]. exists (String c a), L, b. split; [rewrite Hs; reflexivity | exact HL].
    + destruct (IH x H) as [Hne [a [L [b [Hs HL]]]]].
      split; [exact Hne|]. exists (String c a), L, b. split; [rewrite Hs; reflexivity | exact HL].
Qed.

(** ** The response parser *)

(** Whatever the response, the parsed disease and confidence contain no
    line break: [.] without the s flag stops at LF and CR, and the defaults
    are single-line. *)
Theorem parse_single_line_fields : forall response,
  single_line (disease (parse_diagnosis response)) = true /\
  single_line (confidence (parse_diagnosis response)) = true.
Proof.
  intros response. unfold parse_diagnosis, field; cbn [disease confidence]. split.
  - destruct (search disease_re response) as [x|] eqn:E; [|reflexivity].
    apply str_forall_trim. exact (search_dot disease_re response x E).
  - destruct (search confidence_re response) as [x|] eqn:E; [|reflexivity].
    apply str_forall_trim. exact (search_dot confidence_re response x E).
Qed.

(** The parsed treatment is either the default or the whole rest of the
    response after some TREATMENT label (any letter case) and the
    whitespace following it, trimmed: TREATMENT always runs to the end of
    the text. *)
Theorem treatment_is_tail : forall response,
  treatment (parse_diagnosis response) = "Consult veterinarian" \/
  exists a L b x, response = a ++ L ++ b ++ x /\
    strip_prefix_ci "TREATMENT:" L = Some "" /\ all_space b = true /\ x <> "" /\
    treatment (parse_diagnosis response) = trim x.
Proof.
  intros response. unfold parse_diagnosis, field; cbn [treatment].
  destruct (search treatment_re response) as [x|] eqn:E; [right|left; reflexivity].
  destruct (search_treatment_label response x E) as [Hne [a [L [b [Hs [HL Hb]]]]]].
  exists a, L, b, x. repeat split; assumption || reflexivity.
Qed.

(** ** The keyword fallback *)

Lemma mentions_lower : forall s1 s2 kw,
  map toLowerCase s1 = map toLowerCase s2 -> mentions s1 kw = mentions s2 kw.
Proof.
  induction s1 as [|a s1 IH]; intros [|b s2] kw H; simpl in H; try discriminate; [reflexivity|].
  injection H as Hab Hs. unfold mentions in *. simpl. rewrite Hab. f_equal. apply IH, Hs.
Qed.

(** The keyword rules of the fallback read the symptoms only through
    [toLowerCase]: two symptom lists that agree up to letter case get
    the same likely disease and the same explanation text. *)
Theorem classify_case_insensitive : forall s1 s2,
  map toLowerCase s1 = map toLowerCase s2 -> classify s1 = classify s2.
Proof.
  intros s1 s2 H. unfold classify.
  rewrite !(mentions_lower s1 s2 _ H). reflexivity.
Qed.

Lemma classify_case_insensitive_witness :
  map toLowerCase ["FEVER"; "Respiratory distress"] = map toLowerCase ["fever"; "respiratory DISTRESS"] /\
  classify ["FEVER"; "Respiratory distress"] = classify ["fever"; "respiratory DISTRESS"].
Proof.
  split; [vm_compute; reflexivity|].
  apply classify_case_insensitive. vm_compute. reflexivity.
Defined.
